(** * OpenCoreRevival: the news pipeline, embedded and verified

    A shallow embedding of the two algorithmic stages of the repository:

    - [openCore/clean_news.py], function [clean_news_data]: text repair,
      required-fields filter and duplicate removal over the scraped records;
    - [openCore/analisisSentimiento.py], function
      [analizar_sentimientos_transformers]: sentence-bounded chunking of an
      article body, per-chunk classification with an injected classifier,
      accumulation of the scores and reduction to one display label.

    Python [str] values are modelled by [string]; a character is a code point
    of the Latin-1 range.  Python [float] values are IEEE binary64 numbers and
    are modelled by the primitive floats of the kernel, so every sum, quotient
    and comparison below rounds exactly as CPython's does.  Exceptions are
    values of a small error monad; the classifier is an arbitrary state-passing
    function, and every call made to it is recorded in a trace. *)

From Stdlib Require Import ZArith List String Ascii Bool Lia.
From Stdlib Require Import Floats Uint63.
From stdpp Require Import base option list strings gmap.

Set Default Proof Using "Type".
Local Open Scope string_scope.

(* ===================================================================== *)
(** * Part I: definitions *)
(* ===================================================================== *)

(** ** Python exceptions as an error monad *)

Inductive exn : Type :=
| KeyError
| IndexError
| TypeError
| ValueError
| AttributeError
| ZeroDivisionError
| RuntimeError (msg : string).

Inductive res (A : Type) : Type :=
| Ok (a : A)
| Raise (e : exn).

Arguments Ok {A} a.
Arguments Raise {A} e.

Definition res_bind {A B : Type} (m : res A) (k : A -> res B) : res B :=
  match m with
  | Ok a => k a
  | Raise e => Raise e
  end.

Notation "'do' x <- m ; k" := (res_bind m (fun x => k))
  (at level 10, x name, m at level 100, k at level 200, only parsing).

(** ** The [str] methods the two stages use *)

Module PyStr.

(** [str.isspace] on one character, for the code points below 256:
    U+0009..U+000D, U+001C..U+001F, U+0020, U+0085 and U+00A0. *)
Definition isspace (c : ascii) : bool :=
  let n := nat_of_ascii c in
  (Nat.leb 9 n && Nat.leb n 13) || (Nat.leb 28 n && Nat.leb n 31)
  || Nat.eqb n 32 || Nat.eqb n 133 || Nat.eqb n 160.

Fixpoint lstrip (s : string) : string :=
  match s with
  | EmptyString => EmptyString
  | String c s' => if isspace c then lstrip s' else s
  end.

Fixpoint rstrip (s : string) : string :=
  match s with
  | EmptyString => EmptyString
  | String c s' =>
      match rstrip s' with
      | EmptyString => if isspace c then EmptyString else String c EmptyString
      | r => String c r
      end
  end.

(** [s.strip()]: leading and trailing whitespace removed. *)
Definition strip (s : string) : string := rstrip (lstrip s).

(** [str.lower] on one character of the Latin-1 range: A..Z and the
    accented capitals U+00C0..U+00DE (the multiplication sign U+00D7
    apart) move up by 32. *)
Definition lower_char (c : ascii) : ascii :=
  let n := nat_of_ascii c in
  if (Nat.leb 65 n && Nat.leb n 90)
     || (Nat.leb 192 n && Nat.leb n 222 && negb (Nat.eqb n 215))
  then ascii_of_nat (n + 32) else c.

Fixpoint lower (s : string) : string :=
  match s with
  | EmptyString => EmptyString
  | String c s' => String (lower_char c) (lower s')
  end.

(** [s.split(sep)] for a separator of one character: the pieces between
    the separators, the separators dropped; never the empty list. *)
Fixpoint split (sep : ascii) (s : string) : list string :=
  match s with
  | EmptyString => [EmptyString]
  | String c s' =>
      if Ascii.eqb c sep then EmptyString :: split sep s'
      else match split sep s' with
           | piece :: rest => String c piece :: rest
           | [] => [String c EmptyString]
           end
  end.

Definition len (s : string) : nat := String.length s.

(** Truth value of a [str]: non-empty. *)
Definition truthy (s : string) : bool :=
  match s with EmptyString => false | String _ _ => true end.

(** ["c" * n]. *)
Fixpoint replicate (n : nat) (c : ascii) : string :=
  match n with
  | O => EmptyString
  | S n' => String c (replicate n' c)
  end.

End PyStr.

(** ** analisisSentimiento.py *)

Module Sentimiento.

(** What one call [clasificador_sentimientos(chunk)[0]] followed by the
    reads of [result['label']] and [result['score']] gives: the pair, or
    the exception raised on the way. *)
Definition outcome : Type := res (string * float).

(** [sentiment_scores]: a [dict] that is iterated in insertion order, so
    an association list. *)
Definition scores : Type := list (string * float).

Definition initial_scores : scores :=
  [("positive", 0%float); ("negative", 0%float); ("neutral", 0%float)].

(** [d[k] += v]: [KeyError] when [k] is no key of [d]; the key keeps its
    place. *)
Fixpoint dict_iadd (d : scores) (k : string) (v : float) : res scores :=
  match d with
  | [] => Raise KeyError
  | (k', x) :: d' =>
      if String.eqb k' k then Ok ((k', (x + v)%float) :: d')
      else do d'' <- dict_iadd d' k v; Ok ((k', x) :: d'')
  end.

(** The body of both [try] blocks, after the call: it raises what the
    call raised, or [KeyError] on a label that is no key. *)
Definition accumulate (d : scores) (n : nat) (o : outcome) : res (scores * nat) :=
  do result <- o;
  do d' <- dict_iadd d (fst result) (snd result);
  Ok (d', S n).

Record loop_state (W : Type) : Type := LoopState {
  current_chunk : string;
  sentiment_scores : scores;
  chunk_count : nat;
  (** the classifier's own state *)
  device : W;
  (** every call made to the classifier, oldest first *)
  calls : list (string * outcome)
}.

Arguments LoopState {W}.
Arguments current_chunk {W}.
Arguments sentiment_scores {W}.
Arguments chunk_count {W}.
Arguments device {W}.
Arguments calls {W}.

Section Analizar.
Context {W : Type}.
Variable clasificador_sentimientos : string -> W -> outcome * W.

Definition initial_state (w : W) : loop_state W :=
  LoopState "" initial_scores 0 w [].

(** [try: ... except Exception as e: print(...)] around one call. *)
Definition classify_chunk (st : loop_state W) : loop_state W :=
  let '(o, w') := clasificador_sentimientos (current_chunk st) (device st) in
  let log := (calls st ++ [(current_chunk st, o)])%list in
  match accumulate (sentiment_scores st) (chunk_count st) o with
  | Ok (d', n') => LoopState (current_chunk st) d' n' w' log
  | Raise _ => LoopState (current_chunk st) (sentiment_scores st) (chunk_count st) w' log
  end.

(** [if current_chunk: try ...]. *)
Definition flush (st : loop_state W) : loop_state W :=
  if PyStr.truthy (current_chunk st) then classify_chunk st else st.

Definition set_chunk (st : loop_state W) (c : string) : loop_state W :=
  LoopState c (sentiment_scores st) (chunk_count st) (device st) (calls st).

(** One turn of [for sentence in sentences]. *)
Definition step (st : loop_state W) (sentence : string) : loop_state W :=
  if Nat.eqb (PyStr.len (PyStr.strip sentence)) 0 then st
  else if Nat.ltb (PyStr.len (current_chunk st) + PyStr.len sentence) 500
       then set_chunk st (current_chunk st ++ sentence ++ ".")
       else set_chunk (flush st) (sentence ++ ".").

(** The state at [# If no valid chunks were processed]. *)
Definition final_state (texto : string) (w : W) : loop_state W :=
  flush (fold_left step (PyStr.split "." texto) (initial_state w)).

End Analizar.

(** [x / n] for a [float] and an [int]: the count is converted to the
    nearest float, as CPython does (exactly, below 2^53).  The conversion
    goes through a 63-bit integer, so it stands for CPython's up to 2^63
    classified chunks, more than a text can have. *)
Definition float_of_int (n : nat) : float :=
  PrimFloat.of_uint63 (Uint63.of_Z (Z.of_nat n)).

Definition truediv (x : float) (n : nat) : res float :=
  if Nat.eqb n 0 then Raise ZeroDivisionError else Ok (x / float_of_int n)%float.

(** [for sentiment in sentiment_scores: sentiment_scores[sentiment] /= chunk_count]. *)
Fixpoint averages (d : scores) (n : nat) : res scores :=
  match d with
  | [] => Ok []
  | (k, x) :: d' =>
      do q <- truediv x n;
      do d'' <- averages d' n;
      Ok ((k, q) :: d'')
  end.

(** [max(items, key=lambda x: x[1])]: the running maximum is replaced
    only by an item whose key is greater; [ValueError] on no item. *)
Definition max_scan (m : string * float) (items : scores) : string * float :=
  fold_left (fun m it => if (snd m <? snd it)%float then it else m) items m.

Definition max_by_value (items : scores) : res (string * float) :=
  match items with
  | [] => Raise ValueError
  | it :: rest => Ok (max_scan it rest)
  end.

(** The literal [0.4]: the binary64 number nearest to 2/5. *)
Definition threshold : float := 0x1.999999999999ap-2%float.

Definition to_spanish (max_sentiment : string * float) : string :=
  if (snd max_sentiment <? threshold)%float then "Neutro"
  else if String.eqb (fst max_sentiment) "positive" then "Positivo"
  else if String.eqb (fst max_sentiment) "negative" then "Negativo"
  else "Neutro".

(** From [if chunk_count == 0] to the end of the function. *)
Definition reduce (d : scores) (n : nat) : res string :=
  if Nat.eqb n 0 then Ok "Neutro"
  else
    do avg <- averages d n;
    do max_sentiment <- max_by_value avg;
    Ok (to_spanish max_sentiment).

Definition analizar_sentimientos_transformers {W : Type}
    (texto : string) (clasificador_sentimientos : string -> W -> outcome * W)
    (w : W) : res string :=
  let st := final_state clasificador_sentimientos texto w in
  reduce (sentiment_scores st) (chunk_count st).

End Sentimiento.

(** ** clean_news.py *)

Module CleanNews.

(** A value as [json.load] builds it. *)
#[local] Set Warnings "-register-all".
Inductive json : Type :=
| JNull
| JBool (b : bool)
| JInt (z : Z)
| JFloat (x : float)
| JStr (s : string)
| JList (l : list json)
| JDict (d : list (string * json)).

(** Python's truth value of a JSON value. *)
Definition truthy (v : json) : bool :=
  match v with
  | JNull => false
  | JBool b => b
  | JInt z => negb (Z.eqb z 0)
  | JFloat x => negb (x =? 0)%float
  | JStr s => PyStr.truthy s
  | JList l => match l with [] => false | _ :: _ => true end
  | JDict d => match d with [] => false | _ :: _ => true end
  end.

(** [isinstance(v, str)]. *)
Definition isinstance_str (v : json) : bool :=
  match v with JStr _ => true | _ => false end.

(** One scraped record: a [dict] with text keys. *)
Abbreviation item := (gmap string json).

Definition required_fields : list string :=
  ["image_url"; "title"; "content"; "link"].

Definition text_fields : list string := ["title"; "content"; "link"].

(** [item[key]] followed by a [str] method: [KeyError] without the key,
    [AttributeError] on a value that is no [str]. *)
Definition str_field (it : item) (key : string) : res string :=
  match it !! key with
  | None => Raise KeyError
  | Some (JStr s) => Ok s
  | Some _ => Raise AttributeError
  end.

Definition title_key (it : item) : res string :=
  do s <- str_field it "title"; Ok (PyStr.lower (PyStr.strip s)).

Definition link_key (it : item) : res string :=
  do s <- str_field it "link"; Ok (PyStr.lower (PyStr.strip s)).

Record dedup_state : Type := DedupState {
  seen_titles : gset string;
  seen_links : gset string;
  unique_data : list item
}.

Definition dedup_init : dedup_state := DedupState ∅ ∅ [].

(** One turn of [for item in valid_data]. *)
Definition dedup_step (st : dedup_state) (it : item) : res dedup_state :=
  do title <- title_key it;
  do link <- link_key it;
  if negb (bool_decide (title ∈ seen_titles st))
     && negb (bool_decide (link ∈ seen_links st))
  then Ok (DedupState ({[title]} ∪ seen_titles st)
                      ({[link]} ∪ seen_links st)
                      (unique_data st ++ [it])%list)
  else Ok st.

Fixpoint dedup_loop (st : dedup_state) (items : list item) : res dedup_state :=
  match items with
  | [] => Ok st
  | it :: rest => do st' <- dedup_step st it; dedup_loop st' rest
  end.

(** [all(key in item and item[key] and isinstance(item[key], str) ...)],
    one key. *)
Definition has_field (it : item) (key : string) : bool :=
  match it !! key with
  | None => false
  | Some v => truthy v && isinstance_str v
  end.

Definition is_valid (it : item) : bool :=
  forallb (has_field it) required_fields.

Section Clean.
(** [ftfy.fix_text], a library outside the repository. *)
Variable fix_text : string -> string.

(** [if key in item and isinstance(item[key], str):
       item[key] = ftfy.fix_text(item[key]).strip()]. *)
Definition fix_key (it : item) (key : string) : item :=
  match it !! key with
  | Some (JStr s) => <[key := JStr (PyStr.strip (fix_text s))]> it
  | _ => it
  end.

Definition fix_item (it : item) : item :=
  fold_left fix_key text_fields it.

(** The records that pass the required-fields check, repaired. *)
Definition valid_data (data : list item) : list item :=
  List.filter is_valid (List.map fix_item data).

(** [clean_news_data] between [json.load] and [json.dump]: the list
    written to the output file. *)
Definition clean_news_data (data : list item) : res (list item) :=
  do st <- dedup_loop dedup_init (valid_data data);
  Ok (unique_data st).

End Clean.

End CleanNews.

(** ** Vocabulary of the statements *)

Module Vocab.
Import Sentimiento.

(** Every character is whitespace (so also: the empty string). *)
Fixpoint all_space (s : string) : bool :=
  match s with
  | EmptyString => true
  | String c s' => PyStr.isspace c && all_space s'
  end.

(** A sentence the loop does not skip. *)
Definition nonblank (s : string) : Prop := PyStr.strip s <> "".

(** Sentences joined into one chunk, the terminator after each. *)
Fixpoint join_sentences (ss : list string) : string :=
  match ss with
  | [] => ""
  | s :: rest => s ++ "." ++ join_sentences rest
  end.

(** The bound on a chunk as the specification words it: under 500
    characters, or one sentence of more than 500 characters with its
    terminator. *)
Definition strictly_bounded (texto chunk : string) : Prop :=
  PyStr.len chunk < 500
  \/ exists s, In s (PyStr.split "." texto) /\ chunk = s ++ "." /\ 500 < PyStr.len s.

(** The bound the loop keeps: the test [len(current_chunk) + len(sentence)
    < 500] does not count the terminator it then appends. *)
Definition bounded (texto chunk : string) : Prop :=
  PyStr.len chunk <= 500
  \/ exists s, In s (PyStr.split "." texto) /\ nonblank s
               /\ chunk = s ++ "." /\ 500 <= PyStr.len s.

(** A chunk made of one or more sentences of the text, none blank. *)
Definition well_formed (texto chunk : string) : Prop :=
  exists ss, ss <> []
    /\ Forall (fun s => In s (PyStr.split "." texto) /\ nonblank s) ss
    /\ chunk = join_sentences ss.

(** The chunks handed to the classifier, oldest first. *)
Definition submitted {W : Type} (st : loop_state W) : list string :=
  List.map fst (calls st).

(** The outcomes of the calls, oldest first. *)
Definition outcomes {W : Type} (st : loop_state W) : list outcome :=
  List.map snd (calls st).

(** A call counts as classified when it returned a pair whose label is a
    key of [sentiment_scores]: then, and only then, both statements of the
    [try] block run to their end. *)
Definition classified (o : outcome) : bool :=
  match o with
  | Ok (label, _) =>
      String.eqb label "positive" || String.eqb label "negative"
      || String.eqb label "neutral"
  | Raise _ => false
  end.

(** The accumulator after a list of outcomes, a failed one skipped. *)
Definition tally_step (acc : scores * nat) (o : outcome) : scores * nat :=
  match accumulate (fst acc) (snd acc) o with
  | Ok acc' => acc'
  | Raise _ => acc
  end.

Definition tally (os : list outcome) : scores * nat :=
  fold_left tally_step os (initial_scores, 0).

(** The keys of [sentiment_scores], in the order of the literal. *)
Definition canonical (d : scores) : Prop :=
  List.map fst d = ["positive"; "negative"; "neutral"].

(** A classifier without state that fails on every text. *)
Definition always_raises (_ : string) (w : unit) : outcome * unit :=
  (Raise (RuntimeError "model unavailable"), w).

(** A classifier without state that answers every text alike. *)
Definition constant_classifier (label : string) (score : float)
    (_ : string) (w : unit) : outcome * unit :=
  (Ok (label, score), w).

(** A classifier whose state is the list of the answers it still has
    to give: each call gives the next one, whatever the text. *)
Definition scripted_classifier (_ : string) (script : list outcome)
    : outcome * list outcome :=
  match script with
  | [] => (Raise (RuntimeError "no answer left"), [])
  | o :: rest => (o, rest)
  end.

(** Sums and count are the tally of the calls made so far. *)
Definition tallied {W : Type} (st : loop_state W) : Prop :=
  (sentiment_scores st, chunk_count st) = tally (outcomes st).

(** Two runs are at the same point of the chunking. *)
Definition same_chunks {W1 W2 : Type}
    (st1 : loop_state W1) (st2 : loop_state W2) : Prop :=
  current_chunk st1 = current_chunk st2 /\ submitted st1 = submitted st2.

(** The scan over the three averages, written out. *)
Definition scan3 (ap an au : float) : string * float :=
  let m1 := if (ap <? an)%float then ("negative", an) else ("positive", ap) in
  if (snd m1 <? au)%float then ("neutral", au) else m1.

(** Every sum divided by the count. *)
Definition quotients (d : scores) (n : nat) : scores :=
  List.map (fun kv => (fst kv, (snd kv / float_of_int n)%float)) d.

(** A body of [k] sentences of 300 characters: [k] chunks. *)
Fixpoint long_text (k : nat) : string :=
  match k with
  | O => ""
  | S k' => PyStr.replicate 300 "a" ++ "." ++ long_text k'
  end.

(** The display label of a polarity label. *)
Definition display (label : string) : string :=
  if String.eqb label "positive" then "Positivo"
  else if String.eqb label "negative" then "Negativo"
  else "Neutro".

(** The place of a label in the order positive, negative, neutral. *)
Definition rank (label : string) : nat :=
  if String.eqb label "positive" then 0
  else if String.eqb label "negative" then 1
  else 2.

(** The literal [0.39]. *)
Definition just_below : float := 0x1.8f5c28f5c28f6p-2%float.

(** Every chunk that was classified was classified as positive. *)
Definition all_positive (os : list outcome) : Prop :=
  forall o, In o os -> classified o = true -> exists x, o = Ok ("positive", x).

End Vocab.

(** ** Vocabulary of the statements on the records *)

Module RecordVocab.
Import CleanNews.

(** The comparison keys of a record, for statements: the text when the
    field is there and is text. *)
Definition text_or_empty (r : res string) : string :=
  match r with Ok s => s | Raise _ => "" end.

Definition title_of (it : item) : string := text_or_empty (title_key it).
Definition link_of (it : item) : string := text_or_empty (link_key it).

(** The field is there, is text and is not empty. *)
Definition filled (it : item) (key : string) : Prop :=
  exists s, it !! key = Some (JStr s) /\ s <> "".

(** Neither key of the record is a key of a record of [kept]. *)
Definition fresh (kept : list item) (it : item) : Prop :=
  (title_of it ∉ List.map title_of kept) /\ (link_of it ∉ List.map link_of kept).

#[global] Instance fresh_dec (kept : list item) (it : item) : Decision (fresh kept it).
Proof. unfold fresh. apply _. Defined.

(** The records kept out of [items] after [kept]: the loop of the
    duplicate filter as a function on lists, for records that passed the
    required-fields check. *)
Fixpoint keep (kept items : list item) : list item :=
  match items with
  | [] => kept
  | it :: rest =>
      keep (if decide (fresh kept it) then (kept ++ [it])%list else kept) rest
  end.

(** The state of the loop that goes with a list of kept records. *)
Definition state_of (kept : list item) : dedup_state :=
  DedupState (list_to_set (List.map title_of kept))
             (list_to_set (List.map link_of kept)) kept.

(** No two records share a title key, no two share a link key. *)
Definition distinct_keys (kept : list item) : Prop :=
  NoDup (List.map title_of kept) /\ NoDup (List.map link_of kept).

(** What one repair does to the value under [key]. *)
Definition fix_value (fix_text : string -> string) (key : string) (v : json) : json :=
  match v with
  | JStr s =>
      if bool_decide (key ∈ text_fields) then JStr (PyStr.strip (fix_text s)) else v
  | _ => v
  end.

(** A complete record, for examples. *)
Definition article (title content link image_url : string) : item :=
  <["title" := JStr title]>
    (<["content" := JStr content]>
       (<["link" := JStr link]>
          (<["image_url" := JStr image_url]>
             (<["website" := JStr "emol"]> ∅)))).

End RecordVocab.

(** ** analisisSentimiento.py, [main] *)

Module Anotar.
Import Sentimiento CleanNews.

(** [key in item and item[key]], one key. *)
Definition has_value (it : item) (key : string) : bool :=
  match it !! key with
  | None => false
  | Some v => truthy v
  end.

(** The filter of [main]: the four keys present with a true value; it
    does not ask for text. *)
Definition main_valid (it : item) : bool :=
  forallb (has_value it) ["image_url"; "title"; "content"; "link"].

(** [analizar_sentimientos_transformers(texto, clasificador)] on a value
    of any type: [texto.split('.')] raises [AttributeError] on a value
    that is no [str], before the classifier is called.  The state of the
    classifier after the call is returned beside the label. *)
Definition analizar_valor {W : Type} (texto : json)
    (clasificador_sentimientos : string -> W -> outcome * W) (w : W)
    : res string * W :=
  match texto with
  | JStr s =>
      let st := final_state clasificador_sentimientos s w in
      (reduce (sentiment_scores st) (chunk_count st), device st)
  | _ => (Raise AttributeError, w)
  end.

(** [for item in valid_data: item["sentiment"] = analizar(...)]: one
    classifier serves all the records; an exception leaves the loop. *)
Fixpoint annotate {W : Type}
    (clasificador_sentimientos : string -> W -> outcome * W)
    (items : list item) (w : W) : res (list item) :=
  match items with
  | [] => Ok []
  | it :: rest =>
      match it !! "content" with
      | None => Raise KeyError
      | Some texto =>
          let '(r, w') := analizar_valor texto clasificador_sentimientos w in
          do sentiment <- r;
          do rest' <- annotate clasificador_sentimientos rest w';
          Ok (<["sentiment" := JStr sentiment]> it :: rest')
      end
  end.

(** [main] between [json.load] and [json.dump]: the list written to
    [newsdb.json], or the exception that ends the run before anything is
    written. *)
Definition main {W : Type} (data : list item)
    (clasificador_sentimientos : string -> W -> outcome * W) (w : W)
    : res (list item) :=
  annotate clasificador_sentimientos (List.filter main_valid data) w.

End Anotar.

(** ** clean_news.py, the summary *)

Module Resumen.
Import CleanNews.

Record summary : Type := Summary {
  (** [len(data) - len(unique_data)] *)
  total_removed : Z;
  (** [len(data) - len(valid_data)] *)
  missing_fields : Z;
  (** [len(valid_data) - len(unique_data)] *)
  duplicates : Z
}.

Definition len (l : list item) : Z := Z.of_nat (List.length l).

(** The three numbers printed after the output file is written. *)
Definition clean_news_summary (fix_text : string -> string) (data : list item)
    : res summary :=
  do st <- dedup_loop dedup_init (valid_data fix_text data);
  Ok (Summary (len data - len (unique_data st))
              (len data - len (valid_data fix_text data))
              (len (valid_data fix_text data) - len (unique_data st))).

End Resumen.

(** ** news/views.py, [get_website_from_link] and the loop of [get_news] *)

Module Views.

(** A field of a stored document, as far as the two functions look at
    it: a text, or a value of another type (a date, a number, nothing)
    with its truth value. *)
Inductive valor : Type :=
| VStr (s : string)
| VOtro (verdad : bool).

Definition truthy (v : valor) : bool :=
  match v with
  | VStr s => PyStr.truthy s
  | VOtro b => b
  end.

(** A document: a [dict] with text keys. *)
Abbreviation doc := (gmap string valor).

(** [s.replace('www.', '')]: every occurrence, found from the left,
    removed; the search goes on after the occurrence. *)
Fixpoint remove_www (s : string) : string :=
  match s with
  | EmptyString => EmptyString
  | String c1 r1 =>
      match r1 with
      | String c2 (String c3 (String c4 r4)) =>
          if Ascii.eqb c1 "w" && Ascii.eqb c2 "w" && Ascii.eqb c3 "w"
             && Ascii.eqb c4 "."
          then remove_www r4
          else String c1 (remove_www r1)
      | _ => String c1 (remove_www r1)
      end
  end.

(** [s.startswith(('http://', 'https://'))]. *)
Definition startswith_http (s : string) : bool :=
  String.prefix "http://" s || String.prefix "https://" s.

Section Website.
(** [urlparse(link).netloc], from the standard library, when it is a
    text; otherwise the exception that [urlparse] or the [str] methods
    applied to the result raise. *)
Variable urlparse_netloc : valor -> res string.

(** [try: ... except: return 'default']. *)
Definition get_website_from_link (link : valor) : string :=
  match urlparse_netloc link with
  | Raise _ => "default"
  | Ok netloc =>
      match PyStr.split "." (remove_www netloc) with
      | domain :: _ => domain
      | [] => "default"
      end
  end.

(** [doc.get(key)] as a truth value: false without the key. *)
Definition get_truthy (d : doc) (key : string) : bool :=
  match d !! key with
  | None => false
  | Some v => truthy v
  end.

(** [if not doc.get('website') and doc.get('link'):
       doc['website'] = get_website_from_link(doc['link'])]. *)
Definition fill_website (d : doc) : doc :=
  if negb (get_truthy d "website") && get_truthy d "link"
  then match d !! "link" with
       | Some link => <["website" := VStr (get_website_from_link link)]> d
       | None => d
       end
  else d.

(** [for doc in cursor], from the documents the cursor still has to
    give, with [news_list] and [count] as they stand.  A true [img_url]
    that is no text has no [startswith]: the exception leaves the loop. *)
Fixpoint collect (max_items : Z) (cursor : list doc)
    (news_list : list doc) (count : Z) : res (list doc) :=
  match cursor with
  | [] => Ok news_list
  | d :: rest =>
      if (count >=? max_items)%Z then Ok news_list
      else
        match default (VStr "") (d !! "img_url") with
        | VStr img_url =>
            if negb (PyStr.truthy img_url) || negb (startswith_http img_url)
            then collect max_items rest news_list count
            else collect max_items rest (news_list ++ [fill_website d])%list
                         (count + 1)%Z
        | VOtro true => Raise AttributeError
        | VOtro false => collect max_items rest news_list count
        end
  end.

(** [max_items = limit if limit else 1000]. *)
Definition max_items_of (limit : option Z) : Z :=
  match limit with
  | Some n => if Z.eqb n 0 then 1000%Z else n
  | None => 1000%Z
  end.

(** What [get_news] returns when the cache has no entry and the database
    answers with the documents of [cursor]: the list collected, or the
    empty list after an exception. *)
Definition get_news_from (limit : option Z) (cursor : list doc) : list doc :=
  match collect (max_items_of limit) cursor [] 0%Z with
  | Ok news_list => news_list
  | Raise _ => []
  end.

End Website.

End Views.

(** ** Vocabulary of the further statements *)

Module MoreVocab.
Import Sentimiento Vocab.

(** The sentences the loop does not skip, in the order of the text. *)
Definition spoken (texto : string) : list string :=
  List.filter (fun s => negb (Nat.eqb (PyStr.len (PyStr.strip s)) 0))
              (PyStr.split "." texto).


(** The chunks handed over are [groups], the chunk under construction is
    [cur], and together they are the sentences [done]. *)
Definition grouped {W : Type} (st : loop_state W) (done : list string) : Prop :=
  exists groups cur,
    submitted st = List.map join_sentences groups
    /\ Forall (fun g => g <> []) groups
    /\ current_chunk st = join_sentences cur
    /\ (concat groups ++ cur)%list = done.

End MoreVocab.

Module AnotarVocab.
Import CleanNews.

(** [out] is [it] with one of the three labels under [sentiment]. *)
Definition annotated (it out : item) : Prop :=
  exists label,
    In label ["Positivo"; "Negativo"; "Neutro"]
    /\ out = <["sentiment" := JStr label]> it.

(** The content of the record is a text. *)
Definition text_content (it : item) : Prop :=
  exists s, it !! "content" = Some (JStr s).

End AnotarVocab.

Module ViewsVocab.
Import Views.

(** The character occurs in the text. *)
Fixpoint has_char (c : ascii) (s : string) : bool :=
  match s with
  | EmptyString => false
  | String x s' => Ascii.eqb x c || has_char c s'
  end.

(** A document [get_news] may return: its [img_url] is a text that
    starts with [http://] or [https://], and it has a [website] when its
    [link] is true. *)
Definition presentable (d : doc) : Prop :=
  (exists u, d !! "img_url" = Some (VStr u) /\ startswith_http u = true)
  /\ (get_truthy d "link" = true -> exists v, d !! "website" = Some v).

End ViewsVocab.

(* ===================================================================== *)
(** * Part II: properties *)
(* ===================================================================== *)

(** ** Strings *)

Module PyStrFacts.
Import PyStr Vocab.

Lemma app_cons (c : ascii) (a b : string) : String c a ++ b = String c (a ++ b).
Proof. reflexivity. Qed.

Lemma len_app (a b : string) : len (a ++ b) = len a + len b.
Proof.
  unfold len. induction a as [|c a IH]; [reflexivity|].
  rewrite app_cons. simpl. now rewrite IH.
Qed.

Lemma all_space_app (a b : string) :
  all_space (a ++ b) = all_space a && all_space b.
Proof.
  induction a as [|c a IH]; [reflexivity|].
  rewrite app_cons. simpl. rewrite IH. now rewrite andb_assoc.
Qed.

Lemma lstrip_empty (s : string) : lstrip s = "" <-> all_space s = true.
Proof.
  induction s as [|c s IH]; simpl; [tauto|].
  destruct (isspace c); simpl; [exact IH | split; discriminate].
Qed.

Lemma rstrip_empty (s : string) : rstrip s = "" <-> all_space s = true.
Proof.
  induction s as [|c s IH]; simpl; [tauto|].
  destruct (rstrip s) as [|c' r] eqn:E.
  - destruct (isspace c); simpl.
    + split; [intros _; now apply IH | reflexivity].
    + split; discriminate.
  - split; [discriminate|].
    intros H. apply andb_prop in H as [_ H]. apply IH in H. discriminate.
Qed.

(** What [lstrip] leaves starts with a character that is no whitespace. *)
Lemma lstrip_head (s : string) :
  lstrip s = "" \/ exists c r, lstrip s = String c r /\ isspace c = false.
Proof.
  induction s as [|c s IH]; simpl; [now left|].
  destruct (isspace c) eqn:E; [exact IH|].
  right. eauto.
Qed.

Lemma rstrip_head (c : ascii) (s : string) :
  isspace c = false -> exists r, rstrip (String c s) = String c r.
Proof.
  intros H. simpl. destruct (rstrip s); [rewrite H|]; eauto.
Qed.

Lemma rstrip_idem (s : string) : rstrip (rstrip s) = rstrip s.
Proof.
  induction s as [|c s IH]; simpl; [reflexivity|].
  destruct (rstrip s) as [|c' r] eqn:E.
  - destruct (isspace c) eqn:Ec; simpl; [reflexivity | now rewrite Ec].
  - change (rstrip (String c (String c' r))) with
      (match rstrip (String c' r) with
       | "" => if isspace c then "" else String c ""
       | String a b => String c (String a b)
       end).
    now rewrite IH.
Qed.

Lemma strip_empty (s : string) : strip s = "" <-> all_space s = true.
Proof.
  unfold strip. rewrite rstrip_empty. split; intros H.
  - apply lstrip_empty. destruct (lstrip_head s) as [E | (c & r & E & Hc)]; [exact E|].
    rewrite E in H. simpl in H. now rewrite Hc in H.
  - apply lstrip_empty in H. now rewrite H.
Qed.

(** [strip] is idempotent. *)
Lemma strip_idem (s : string) : strip (strip s) = strip s.
Proof.
  unfold strip.
  destruct (lstrip_head s) as [E | (c & r & E & Hc)].
  - now rewrite E.
  - rewrite E. destruct (rstrip_head c r Hc) as [r' E'].
    rewrite E'. simpl lstrip. rewrite Hc. rewrite <- E'. apply rstrip_idem.
Qed.

Lemma nonblank_not_all_space (s : string) : nonblank s <-> all_space s = false.
Proof.
  unfold nonblank. rewrite strip_empty. now destruct (all_space s).
Qed.

(** A text that holds the terminator is not blank. *)
Lemma nonblank_with_dot (a b : string) : nonblank (a ++ "." ++ b).
Proof.
  apply nonblank_not_all_space. rewrite !all_space_app. simpl.
  now rewrite andb_false_r.
Qed.

Lemma app_assoc (a b c : string) : (a ++ b) ++ c = a ++ b ++ c.
Proof. induction a as [|x a IH]; [reflexivity | now rewrite !app_cons, IH]. Qed.

Lemma len_replicate (n : nat) (c : ascii) : len (replicate n c) = n.
Proof. unfold len. induction n as [|n IH]; simpl; [reflexivity | now rewrite IH]. Qed.

End PyStrFacts.

(** ** The chunking loop *)

Module ChunkerFacts.
Import PyStr Vocab PyStrFacts Sentimiento.

Section WithClassifier.
Context {W : Type}.
Variable clf : string -> W -> outcome * W.

Lemma classify_chunk_calls (st : loop_state W) :
  calls (classify_chunk clf st)
  = (calls st ++ [(current_chunk st, fst (clf (current_chunk st) (device st)))])%list.
Proof.
  unfold classify_chunk.
  destruct (clf (current_chunk st) (device st)) as [o w'].
  now destruct (accumulate _ _ o) as [[d' n']|e].
Qed.

Lemma classify_chunk_tally (st : loop_state W) :
  (sentiment_scores (classify_chunk clf st), chunk_count (classify_chunk clf st))
  = tally_step (sentiment_scores st, chunk_count st)
      (fst (clf (current_chunk st) (device st))).
Proof.
  unfold classify_chunk, tally_step.
  destruct (clf (current_chunk st) (device st)) as [o w']. simpl.
  now destruct (accumulate _ _ o) as [[d' n']|e].
Qed.

Lemma flush_calls (st : loop_state W) :
  calls (flush clf st)
  = if truthy (current_chunk st)
    then (calls st ++ [(current_chunk st, fst (clf (current_chunk st) (device st)))])%list
    else calls st.
Proof.
  unfold flush. destruct (truthy (current_chunk st)); [|reflexivity].
  apply classify_chunk_calls.
Qed.

(** A property of chunks that holds of every chunk of one sentence and
    is kept when a sentence is added below the limit holds of the
    chunk under construction and of every chunk handed over. *)
Lemma step_invariant (P : string -> Prop) (l : list string) :
  (forall s, In s l -> nonblank s -> P (s ++ ".")) ->
  (forall c s, P c -> In s l -> nonblank s ->
               len c + len s < 500 -> P (c ++ s ++ ".")) ->
  forall st : loop_state W,
    (current_chunk st = "" \/ P (current_chunk st)) ->
    Forall P (submitted st) ->
    let st' := fold_left (step clf) l st in
    (current_chunk st' = "" \/ P (current_chunk st'))
    /\ Forall P (submitted st').
Proof.
  induction l as [|s l IH]; intros Hone Hadd st Hcur Hsub; simpl; [tauto|].
  apply IH; clear IH.
  - intros s' Hs'. apply Hone. now right.
  - intros c s' Hc Hs'. apply Hadd; [exact Hc | now right].
  - unfold step.
    destruct (Nat.eqb (len (strip s)) 0) eqn:Eblank; [exact Hcur|].
    assert (Hnb : nonblank s).
    { unfold nonblank. intros E. rewrite E in Eblank. discriminate. }
    right.
    destruct (Nat.ltb _ 500) eqn:Elt; simpl.
    + apply Nat.ltb_lt in Elt. destruct Hcur as [E | Hc].
      * rewrite E. apply Hone; [now left | exact Hnb].
      * apply Hadd; [exact Hc | now left | exact Hnb | exact Elt].
    + apply Hone; [now left | exact Hnb].
  - unfold step.
    destruct (Nat.eqb (len (strip s)) 0); [exact Hsub|].
    destruct (Nat.ltb _ 500); simpl; [exact Hsub|].
    unfold submitted. simpl. rewrite flush_calls.
    destruct (truthy (current_chunk st)) eqn:Et; [|exact Hsub].
    rewrite List.map_app. apply Forall_app. split; [exact Hsub|].
    constructor; [|constructor]. simpl.
    destruct Hcur as [E | Hc]; [|exact Hc].
    rewrite E in Et. discriminate.
Qed.

(** The same, for the chunks of a whole run. *)
Lemma submitted_invariant (P : string -> Prop) (texto : string) (w : W) :
  (forall s, In s (split "." texto) -> nonblank s -> P (s ++ ".")) ->
  (forall c s, P c -> In s (split "." texto) -> nonblank s ->
               len c + len s < 500 -> P (c ++ s ++ ".")) ->
  Forall P (submitted (final_state clf texto w)).
Proof.
  intros Hone Hadd. unfold final_state.
  destruct (step_invariant P (split "." texto) Hone Hadd (initial_state w))
    as [Hcur Hsub]; [now left | constructor |].
  set (st := fold_left (step clf) (split "." texto) (initial_state w)) in *.
  unfold submitted. rewrite flush_calls.
  destruct (truthy (current_chunk st)) eqn:Et; [|exact Hsub].
  rewrite List.map_app. apply Forall_app. split; [exact Hsub|].
  constructor; [|constructor]. simpl.
  destruct Hcur as [E | Hc]; [|exact Hc].
  rewrite E in Et. discriminate.
Qed.

End WithClassifier.

End ChunkerFacts.

(** ** Chunks handed to the classifier *)

Module ChunkClaims.
Import PyStr Vocab PyStrFacts Sentimiento ChunkerFacts.

Lemma join_sentences_app (a b : list string) :
  join_sentences (a ++ b) = join_sentences a ++ join_sentences b.
Proof.
  induction a as [|s a IH]; simpl; [reflexivity|].
  rewrite IH. now rewrite !app_assoc.
Qed.

Lemma well_formed_one (texto s : string) :
  In s (split "." texto) -> nonblank s -> well_formed texto (s ++ ".").
Proof.
  intros Hin Hnb. exists [s]. split; [discriminate|]. split.
  - constructor; [split; assumption | constructor].
  - reflexivity.
Qed.

Lemma well_formed_add (texto c s : string) :
  well_formed texto c -> In s (split "." texto) -> nonblank s ->
  well_formed texto (c ++ s ++ ".").
Proof.
  intros (ss & Hne & Hall & ->) Hin Hnb. exists (ss ++ [s])%list. split.
  - destruct ss; discriminate.
  - split.
    + apply Forall_app. split; [exact Hall|].
      constructor; [split; assumption | constructor].
    + rewrite join_sentences_app. reflexivity.
Qed.

Lemma nonblank_len (s : string) : nonblank s -> 1 <= len s.
Proof.
  intros H. destruct s as [|c s]; [now elim H | unfold len; simpl; lia].
Qed.

(** C1, as the specification states it, fails: a body of one sentence
    of 499 characters is handed over as one chunk of 500 characters, which
    is neither under 500 nor a sentence of more than 500; a body of one
    sentence of 500 characters is handed over as one chunk of 501. *)
Lemma chunk_of_500_characters :
  (exists chunk,
      In chunk (submitted (final_state (constant_classifier "neutral" 0.5)
                             (replicate 499 "a") tt))
      /\ len chunk = 500
      /\ ~ strictly_bounded (replicate 499 "a") chunk)
  /\ (exists chunk,
        In chunk (submitted (final_state (constant_classifier "neutral" 0.5)
                               (replicate 500 "a") tt))
        /\ len chunk = 501
        /\ ~ strictly_bounded (replicate 500 "a") chunk).
Proof.
  split.
  - exists (replicate 499 "a" ++ "."). split; [|split].
    + vm_compute. now left.
    + rewrite len_app, len_replicate. reflexivity.
    + intros [Hlt | (s & Hin & _ & Hlen)].
      * rewrite len_app, len_replicate in Hlt. simpl in Hlt. lia.
      * assert (E : split "." (replicate 499 "a") = [replicate 499 "a"])
          by (vm_compute; reflexivity).
        rewrite E in Hin. destruct Hin as [<- | []].
        rewrite len_replicate in Hlen. lia.
  - exists (replicate 500 "a" ++ "."). split; [|split].
    + vm_compute. now left.
    + rewrite len_app, len_replicate. reflexivity.
    + intros [Hlt | (s & Hin & _ & Hlen)].
      * rewrite len_app, len_replicate in Hlt. simpl in Hlt. lia.
      * assert (E : split "." (replicate 500 "a") = [replicate 500 "a"])
          by (vm_compute; reflexivity).
        rewrite E in Hin. destruct Hin as [<- | []].
        rewrite len_replicate in Hlen. lia.
Qed.

(** C1, amended: every chunk handed to the classifier has at most 500
    characters, unless it is one sentence of 500 characters or more
    followed by the terminator. *)
Theorem chunk_bound {W : Type} (clf : string -> W -> outcome * W)
    (texto : string) (w : W) (chunk : string) :
  In chunk (submitted (final_state clf texto w)) -> bounded texto chunk.
Proof.
  revert chunk. apply List.Forall_forall. apply submitted_invariant.
  - intros s Hin Hnb. destruct (Nat.le_gt_cases 500 (len s)) as [Hbig | Hsmall].
    + right. exists s. auto.
    + left. rewrite len_app. simpl. lia.
  - intros c s _ _ _ Hlt. left. rewrite !len_app. simpl. lia.
Qed.

Lemma chunk_bound_witness :
  In "Sube el cobre. Baja el dolar."
     (submitted (final_state (constant_classifier "positive" 0.75)
                   "Sube el cobre. Baja el dolar." tt))
  /\ bounded "Sube el cobre. Baja el dolar." "Sube el cobre. Baja el dolar.".
Proof.
  split; [vm_compute; now left|].
  apply (chunk_bound (constant_classifier "positive" 0.75) _ tt).
  vm_compute. now left.
Defined.

(** C10: every chunk handed to the classifier is made of one or more
    sentences of the text that are not blank, each followed by the
    terminator; so the chunk is not blank itself, and a lone terminator
    is never handed over. *)
Theorem submitted_chunk_well_formed {W : Type} (clf : string -> W -> outcome * W)
    (texto : string) (w : W) (chunk : string) :
  In chunk (submitted (final_state clf texto w)) ->
  well_formed texto chunk /\ nonblank chunk /\ chunk <> ".".
Proof.
  intros Hin.
  assert (Hwf : well_formed texto chunk).
  { revert chunk Hin. apply List.Forall_forall. apply submitted_invariant.
    - apply well_formed_one.
    - intros c s Hc Hs Hnb _. now apply well_formed_add. }
  split; [exact Hwf|].
  destruct Hwf as (ss & Hne & Hall & ->).
  destruct ss as [|s ss]; [now elim Hne|]. simpl.
  split; [apply nonblank_with_dot|].
  inversion Hall as [|? ? [_ Hnb] _]; subst.
  intros E. apply (f_equal len) in E. rewrite !len_app in E.
  apply nonblank_len in Hnb. simpl in E. lia.
Qed.

Lemma submitted_chunk_well_formed_witness :
  In "Sube el cobre. Baja el dolar."
     (submitted (final_state (constant_classifier "positive" 0.75)
                   "Sube el cobre.  . Baja el dolar." tt))
  /\ (well_formed "Sube el cobre.  . Baja el dolar." "Sube el cobre. Baja el dolar."
      /\ nonblank "Sube el cobre. Baja el dolar."
      /\ "Sube el cobre. Baja el dolar." <> ".").
Proof.
  split; [vm_compute; now left|].
  apply (submitted_chunk_well_formed (constant_classifier "positive" 0.75) _ tt).
  vm_compute. now left.
Defined.

End ChunkClaims.

(** ** Accumulation of the outcomes *)

Module AccumFacts.
Import PyStr Vocab PyStrFacts Sentimiento ChunkerFacts.

Lemma canonical_shape (d : scores) :
  canonical d ->
  exists a b c, d = [("positive", a); ("negative", b); ("neutral", c)].
Proof.
  unfold canonical. intros H.
  destruct d as [|[k1 a] [|[k2 b] [|[k3 c] [|? ?]]]]; try discriminate.
  simpl in H. injection H as -> -> ->. eauto.
Qed.

Lemma canonical_initial : canonical initial_scores.
Proof. reflexivity. Qed.

Lemma classified_label (label : string) (x : float) :
  classified (Ok (label, x)) = true ->
  label = "positive" \/ label = "negative" \/ label = "neutral".
Proof.
  simpl. intros H.
  apply orb_prop in H as [H | H]; [apply orb_prop in H as [H | H]|];
    apply String.eqb_eq in H; auto.
Qed.

Lemma accumulate_classified (d : scores) (n : nat) (o : outcome) :
  canonical d -> classified o = true ->
  exists d', accumulate d n o = Ok (d', S n) /\ canonical d'.
Proof.
  intros Hd Ho. destruct (canonical_shape d Hd) as (a & b & c & ->).
  destruct o as [[label x]|e]; [|discriminate].
  destruct (classified_label label x Ho) as [-> | [-> | ->]];
    eexists; (split; [reflexivity | reflexivity]).
Qed.

Lemma accumulate_unclassified (d : scores) (n : nat) (o : outcome) :
  canonical d -> classified o = false -> exists e, accumulate d n o = Raise e.
Proof.
  intros Hd Ho. destruct (canonical_shape d Hd) as (a & b & c & ->).
  destruct o as [[label x]|e]; [|eauto].
  simpl in Ho. apply orb_false_elim in Ho as [Ho E3].
  apply orb_false_elim in Ho as [E1 E2].
  rewrite String.eqb_sym in E1, E2, E3.
  exists KeyError. unfold accumulate. cbn [res_bind fst snd dict_iadd].
  rewrite E1. cbn [res_bind fst snd dict_iadd].
  rewrite E2. cbn [res_bind fst snd dict_iadd].
  rewrite E3. reflexivity.
Qed.

(** A call that fails leaves the sums and the count as they were. *)
Lemma tally_step_skip (acc : scores * nat) (o : outcome) :
  canonical (fst acc) -> classified o = false -> tally_step acc o = acc.
Proof.
  intros Hd Ho. unfold tally_step.
  destruct (accumulate_unclassified _ (snd acc) o Hd Ho) as [e ->]. reflexivity.
Qed.

Lemma tally_step_classified (acc : scores * nat) (o : outcome) :
  canonical (fst acc) -> classified o = true ->
  canonical (fst (tally_step acc o)) /\ snd (tally_step acc o) = S (snd acc).
Proof.
  intros Hd Ho. unfold tally_step.
  destruct (accumulate_classified _ (snd acc) o Hd Ho) as (d' & -> & Hd').
  now split.
Qed.

Lemma tally_step_canonical (acc : scores * nat) (o : outcome) :
  canonical (fst acc) -> canonical (fst (tally_step acc o)).
Proof.
  intros Hd. destruct (classified o) eqn:Ho.
  - now apply tally_step_classified.
  - now rewrite tally_step_skip.
Qed.

Lemma fold_tally_canonical (os : list outcome) (acc : scores * nat) :
  canonical (fst acc) -> canonical (fst (fold_left tally_step os acc)).
Proof.
  revert acc. induction os as [|o os IH]; intros acc Hd; simpl; [exact Hd|].
  apply IH. now apply tally_step_canonical.
Qed.

(** Only the classified outcomes count. *)
Lemma fold_tally_filter (os : list outcome) (acc : scores * nat) :
  canonical (fst acc) ->
  fold_left tally_step os acc
  = fold_left tally_step (List.filter classified os) acc.
Proof.
  revert acc. induction os as [|o os IH]; intros acc Hd; simpl; [reflexivity|].
  destruct (classified o) eqn:Ho; simpl.
  - apply IH. now apply tally_step_canonical.
  - rewrite tally_step_skip by assumption. now apply IH.
Qed.

Lemma fold_tally_count (os : list outcome) (acc : scores * nat) :
  canonical (fst acc) ->
  snd (fold_left tally_step os acc)
  = snd acc + List.length (List.filter classified os).
Proof.
  revert acc. induction os as [|o os IH]; intros acc Hd; simpl; [lia|].
  destruct (classified o) eqn:Ho; simpl.
  - destruct (tally_step_classified acc o Hd Ho) as [Hd' Hn].
    rewrite IH by assumption. rewrite Hn. lia.
  - rewrite tally_step_skip by assumption. now apply IH.
Qed.

Lemma tally_snoc (os : list outcome) (o : outcome) :
  tally (os ++ [o]) = tally_step (tally os) o.
Proof. unfold tally. now rewrite fold_left_app. Qed.

Lemma tally_canonical (os : list outcome) : canonical (fst (tally os)).
Proof. apply fold_tally_canonical, canonical_initial. Qed.

Section WithClassifier.
Context {W : Type}.
Variable clf : string -> W -> outcome * W.

Lemma flush_tallied (st : loop_state W) : tallied st -> tallied (flush clf st).
Proof.
  unfold tallied, flush. intros H.
  destruct (truthy (current_chunk st)); [|exact H].
  rewrite classify_chunk_tally. unfold outcomes.
  rewrite classify_chunk_calls, List.map_app. simpl.
  rewrite tally_snoc. now rewrite H.
Qed.

Lemma step_tallied (st : loop_state W) (s : string) :
  tallied st -> tallied (step clf st s).
Proof.
  intros H. unfold step.
  destruct (Nat.eqb _ 0); [exact H|].
  destruct (Nat.ltb _ 500); [exact H|].
  apply (flush_tallied st H).
Qed.

Lemma loop_tallied (l : list string) (st : loop_state W) :
  tallied st -> tallied (fold_left (step clf) l st).
Proof.
  revert st. induction l as [|s l IH]; intros st H; simpl; [exact H|].
  apply IH. now apply step_tallied.
Qed.

Lemma final_state_tallied (texto : string) (w : W) :
  tallied (final_state clf texto w).
Proof.
  unfold final_state. apply flush_tallied, loop_tallied. reflexivity.
Qed.

Lemma final_state_canonical (texto : string) (w : W) :
  canonical (sentiment_scores (final_state clf texto w)).
Proof.
  change (canonical (fst (sentiment_scores (final_state clf texto w),
                          chunk_count (final_state clf texto w)))).
  rewrite final_state_tallied. apply tally_canonical.
Qed.

Lemma final_state_count (texto : string) (w : W) :
  chunk_count (final_state clf texto w)
  = List.length (List.filter classified (outcomes (final_state clf texto w))).
Proof.
  pose proof (final_state_tallied texto w) as H.
  apply (f_equal snd) in H. simpl in H. rewrite H. unfold tally.
  now rewrite fold_tally_count by apply canonical_initial.
Qed.

End WithClassifier.

(** The chunks handed over do not depend on the classifier: the loop
    goes on after a failure as after a success. *)
Section TwoClassifiers.
Context {W1 W2 : Type}.
Variable clf1 : string -> W1 -> outcome * W1.
Variable clf2 : string -> W2 -> outcome * W2.

Lemma flush_same_chunks st1 st2 :
  same_chunks st1 st2 -> same_chunks (flush clf1 st1) (flush clf2 st2).
Proof.
  intros [Hc Hs]. unfold same_chunks, submitted, flush.
  rewrite <- Hc.
  destruct (truthy (current_chunk st1)); [|now split].
  rewrite !classify_chunk_calls, !List.map_app. simpl. split.
  - unfold classify_chunk.
    destruct (clf1 _ _) as [o1 w1]. destruct (clf2 _ _) as [o2 w2].
    destruct (accumulate _ _ o1) as [[? ?]|?];
      destruct (accumulate _ _ o2) as [[? ?]|?]; simpl; congruence.
  - unfold submitted in Hs. rewrite Hs, Hc. reflexivity.
Qed.

Lemma step_same_chunks st1 st2 (s : string) :
  same_chunks st1 st2 -> same_chunks (step clf1 st1 s) (step clf2 st2 s).
Proof.
  intros H. unfold step.
  destruct (Nat.eqb _ 0); [exact H|].
  destruct H as [Hc Hs]. rewrite <- Hc.
  destruct (Nat.ltb _ 500).
  - split; simpl; [now rewrite Hc | exact Hs].
  - destruct (flush_same_chunks st1 st2 (conj Hc Hs)) as [_ Hs'].
    split; [reflexivity | exact Hs'].
Qed.

Lemma loop_same_chunks (l : list string) st1 st2 :
  same_chunks st1 st2 ->
  same_chunks (fold_left (step clf1) l st1) (fold_left (step clf2) l st2).
Proof.
  revert st1 st2. induction l as [|s l IH]; intros st1 st2 H; simpl; [exact H|].
  apply IH. now apply step_same_chunks.
Qed.

Lemma submitted_any_classifier (texto : string) (w1 : W1) (w2 : W2) :
  submitted (final_state clf1 texto w1) = submitted (final_state clf2 texto w2).
Proof.
  unfold final_state.
  apply flush_same_chunks, loop_same_chunks. now split.
Qed.

End TwoClassifiers.

End AccumFacts.

(** ** Order of the binary64 numbers *)

Module FloatFacts.


Lemma SFcompare_antisym (x y : spec_float) :
  SFcompare y x = option_map CompOpp (SFcompare x y).
Proof.
  destruct x as [sx|sx| |sx mx ex], y as [sy|sy| |sy my ey]; simpl;
    try destruct sx; try destruct sy; try reflexivity; f_equal;
    rewrite (Z.compare_antisym ex ey); destruct (Z.compare ex ey); simpl;
    try reflexivity;
    change (Pos.compare_cont Eq my mx) with (Pos.compare my mx);
    change (Pos.compare_cont Eq mx my) with (Pos.compare mx my);
    rewrite (Pos.compare_antisym mx my); try reflexivity.
Qed.

Ltac order_cases e1 e2 e3 m1 m2 m3 :=
  change (Pos.compare_cont Eq m1 m2) with (Pos.compare m1 m2);
  change (Pos.compare_cont Eq m2 m3) with (Pos.compare m2 m3);
  change (Pos.compare_cont Eq m1 m3) with (Pos.compare m1 m3);
  destruct (Z.compare_spec e1 e2), (Z.compare_spec e2 e3), (Z.compare_spec e1 e3);
  try lia; simpl; try congruence;
  destruct (Pos.compare_spec m1 m2), (Pos.compare_spec m2 m3), (Pos.compare_spec m1 m3);
  try lia; simpl; congruence.

Lemma SFltb_trans (x y z : spec_float) :
  SFltb x y = true -> SFltb y z = true -> SFltb x z = true.
Proof.
  unfold SFltb.
  destruct x as [sx|sx| |sx mx ex], y as [sy|sy| |sy my ey], z as [sz|sz| |sz mz ez];
    simpl; try destruct sx; try destruct sy; try destruct sz;
    simpl; try congruence.
  - order_cases ex ey ez mx my mz.
  - order_cases ex ey ez mx my mz.
Qed.

Local Open Scope float_scope.

Lemma SFcompare_zero_sign (x : spec_float) (s s' : bool) :
  SFcompare x (S754_zero s) = SFcompare x (S754_zero s').
Proof. now destruct x. Qed.

Lemma SFcompare_eqb_l (a b c : spec_float) :
  SFeqb a b = true -> SFcompare a c = SFcompare b c.
Proof.
  unfold SFeqb.
  destruct a as [sa|sa| |sa ma ea], b as [sb|sb| |sb mb eb];
    simpl; try destruct sa; try destruct sb; simpl; try congruence;
    try (now destruct c).
  - destruct (Z.compare_spec ea eb); try congruence.
    change (Pos.compare_cont Eq ma mb) with (Pos.compare ma mb).
    destruct (Pos.compare_spec ma mb); simpl; try congruence. now subst.
  - destruct (Z.compare_spec ea eb); try congruence.
    change (Pos.compare_cont Eq ma mb) with (Pos.compare ma mb).
    destruct (Pos.compare_spec ma mb); try congruence. now subst.
Qed.

Lemma SFeqb_sym (a b : spec_float) : SFeqb a b = SFeqb b a.
Proof.
  unfold SFeqb. rewrite (SFcompare_antisym a b).
  now destruct (SFcompare a b) as [[]|].
Qed.

Lemma SFcompare_eqb_r (a b c : spec_float) :
  SFeqb b c = true -> SFcompare a b = SFcompare a c.
Proof.
  intros H. rewrite (SFcompare_antisym b a), (SFcompare_antisym c a).
  now rewrite (SFcompare_eqb_l b c a H).
Qed.

Lemma eqb_sym (x y : float) : (x =? y) = (y =? x).
Proof. rewrite !FloatAxioms.eqb_spec. apply SFeqb_sym. Qed.

Lemma ltb_eqb_l (a b c : float) : (a =? b) = true -> (a <? c) = (b <? c).
Proof.
  rewrite FloatAxioms.eqb_spec, !FloatAxioms.ltb_spec. intros H. unfold SFltb.
  now rewrite (SFcompare_eqb_l _ _ _ H).
Qed.

Lemma ltb_eqb_r (a b c : float) : (b =? c) = true -> (a <? b) = (a <? c).
Proof.
  rewrite FloatAxioms.eqb_spec, !FloatAxioms.ltb_spec. intros H. unfold SFltb.
  now rewrite (SFcompare_eqb_r _ _ _ H).
Qed.

Lemma leb_eqb_refl (x : float) : (x <=? x) = true -> (x =? x) = true.
Proof.
  rewrite FloatAxioms.leb_spec, FloatAxioms.eqb_spec. unfold SFleb, SFeqb.
  pose proof (SFcompare_antisym (Prim2SF x) (Prim2SF x)) as H.
  destruct (SFcompare (Prim2SF x) (Prim2SF x)) as [[]|]; simpl in H; congruence.
Qed.

Lemma leb_ltb_false (x y : float) : (y <=? x) = true -> (x <? y) = false.
Proof.
  rewrite FloatAxioms.leb_spec, FloatAxioms.ltb_spec. unfold SFleb, SFltb.
  rewrite (SFcompare_antisym (Prim2SF y) (Prim2SF x)).
  now destruct (SFcompare (Prim2SF y) (Prim2SF x)) as [[]|].
Qed.

Lemma leb_neq_ltb (x y : float) :
  (x <=? y) = true -> (x =? y) = false -> (x <? y) = true.
Proof.
  rewrite FloatAxioms.leb_spec, FloatAxioms.eqb_spec, FloatAxioms.ltb_spec. unfold SFleb, SFeqb, SFltb.
  now destruct (SFcompare (Prim2SF x) (Prim2SF y)) as [[]|].
Qed.

Lemma eqb_ltb_false (x y : float) : (x =? y) = true -> (x <? y) = false.
Proof.
  rewrite FloatAxioms.eqb_spec, FloatAxioms.ltb_spec. unfold SFeqb, SFltb.
  now destruct (SFcompare (Prim2SF x) (Prim2SF y)) as [[]|].
Qed.

Lemma ltb_trans (x y z : float) :
  (x <? y) = true -> (y <? z) = true -> (x <? z) = true.
Proof. rewrite !FloatAxioms.ltb_spec. apply SFltb_trans. Qed.

Lemma ltb_asym (x y : float) : (x <? y) = true -> (y <? x) = false.
Proof.
  rewrite !FloatAxioms.ltb_spec. unfold SFltb.
  rewrite (SFcompare_antisym (Prim2SF x) (Prim2SF y)).
  now destruct (SFcompare (Prim2SF x) (Prim2SF y)) as [[]|].
Qed.

Lemma ltb_irrefl (x : float) : (x <? x) = false.
Proof.
  destruct (x <? x) eqn:E; [|reflexivity].
  now rewrite (ltb_asym x x E) in E.
Qed.

(** [0.0 / x] is a zero or not a number, so nothing that is at least
    zero is below it. *)
Lemma ltb_zero_div (c x : float) : (0 <=? c) = true -> (c <? 0 / x) = false.
Proof.
  rewrite FloatAxioms.leb_spec, FloatAxioms.ltb_spec, FloatAxioms.div_spec.
  change (Prim2SF 0) with (S754_zero false).
  unfold SFleb, SFltb. intros H.
  assert (E : SF64div (S754_zero false) (Prim2SF x) = S754_nan
              \/ exists s, SF64div (S754_zero false) (Prim2SF x) = S754_zero s).
  { destruct (Prim2SF x); simpl; eauto. }
  destruct E as [-> | [s ->]].
  - now destruct (Prim2SF c).
  - rewrite (SFcompare_zero_sign _ s false).
    rewrite (SFcompare_antisym (S754_zero false) (Prim2SF c)).
    now destruct (SFcompare (S754_zero false) (Prim2SF c)) as [[]|].
Qed.

End FloatFacts.

(** ** Reduction of the sums to a label *)

Module ReduceFacts.
Import PyStr Vocab PyStrFacts Sentimiento ChunkerFacts AccumFacts FloatFacts.

Lemma averages_quotients (d : scores) (n : nat) :
  n <> 0 -> averages d n = Ok (quotients d n).
Proof.
  intros Hn. induction d as [|[k x] d IH]; simpl; [reflexivity|].
  unfold truediv. destruct n as [|n]; [now elim Hn|]. simpl.
  rewrite IH. reflexivity.
Qed.

Lemma quotients_shape (a b c : float) (n : nat) :
  quotients [("positive", a); ("negative", b); ("neutral", c)] n
  = [("positive", (a / float_of_int n)%float);
     ("negative", (b / float_of_int n)%float);
     ("neutral", (c / float_of_int n)%float)].
Proof. reflexivity. Qed.

Lemma max_by_value_three (ap an au : float) :
  max_by_value [("positive", ap); ("negative", an); ("neutral", au)]
  = Ok (scan3 ap an au).
Proof. unfold max_by_value, max_scan, scan3. simpl. now destruct (ap <? an)%float. Qed.

Lemma scan3_in (ap an au : float) :
  In (scan3 ap an au) [("positive", ap); ("negative", an); ("neutral", au)].
Proof.
  unfold scan3. destruct (ap <? an)%float; simpl;
    match goal with |- context [if ?b then _ else _] => destruct b end;
    simpl; auto.
Qed.

(** No average is greater than the one the scan returns. *)
Lemma scan3_maximal (ap an au : float) (kv : string * float) :
  In kv [("positive", ap); ("negative", an); ("neutral", au)] ->
  (snd (scan3 ap an au) <? snd kv)%float = false.
Proof.
  unfold scan3. intros Hin.
  destruct (ap <? an)%float eqn:E1; simpl.
  - destruct (an <? au)%float eqn:E2; simpl;
      destruct Hin as [<- | [<- | [<- | []]]]; simpl.
    + apply ltb_asym. exact (ltb_trans _ _ _ E1 E2).
    + now apply ltb_asym.
    + apply ltb_irrefl.
    + now apply ltb_asym.
    + apply ltb_irrefl.
    + exact E2.
  - destruct (ap <? au)%float eqn:E2; simpl;
      destruct Hin as [<- | [<- | [<- | []]]]; simpl.
    + now apply ltb_asym.
    + destruct (au <? an)%float eqn:E3; [|reflexivity].
      now rewrite (ltb_trans _ _ _ E2 E3) in E1.
    + apply ltb_irrefl.
    + apply ltb_irrefl.
    + exact E1.
    + exact E2.
Qed.

(** When the sums of the other two labels are still zero, an average at
    least zero wins the scan. *)
Lemma scan3_positive_only (ap z c : float) :
  (ap =? c)%float = true -> (0 <=? c)%float = true ->
  scan3 ap (0 / z) (0 / z) = ("positive", ap).
Proof.
  intros Heq Hc. unfold scan3.
  rewrite (ltb_eqb_l _ _ _ Heq), (ltb_zero_div c z Hc). simpl.
  now rewrite (ltb_eqb_l _ _ _ Heq), (ltb_zero_div c z Hc).
Qed.

Lemma to_spanish_label (m : string * float) :
  In (to_spanish m) ["Positivo"; "Negativo"; "Neutro"].
Proof.
  unfold to_spanish.
  destruct (snd m <? threshold)%float; [simpl; auto|].
  destruct (String.eqb (fst m) "positive"); [simpl; auto|].
  destruct (String.eqb (fst m) "negative"); simpl; auto.
Qed.

Lemma to_spanish_display (m : string * float) :
  (snd m <? threshold)%float = false -> to_spanish m = display (fst m).
Proof. unfold to_spanish, display. now intros ->. Qed.

Lemma to_spanish_low (m : string * float) :
  (snd m <? threshold)%float = true -> to_spanish m = "Neutro".
Proof. unfold to_spanish. now intros ->. Qed.

Lemma reduce_canonical (d : scores) (n : nat) :
  canonical d -> n <> 0 ->
  exists ap an au,
    quotients d n = [("positive", ap); ("negative", an); ("neutral", au)]
    /\ reduce d n = Ok (to_spanish (scan3 ap an au)).
Proof.
  intros Hd Hn. destruct (canonical_shape d Hd) as (a & b & c & ->).
  eexists _, _, _. split; [apply quotients_shape|].
  unfold reduce. destruct n as [|n]; [now elim Hn|].
  change (Nat.eqb (S n) 0) with false. cbv iota.
  rewrite averages_quotients by discriminate.
  rewrite quotients_shape. cbn [res_bind].
  rewrite max_by_value_three. reflexivity.
Qed.

(** The reduction never raises, and gives one of the three labels. *)
Lemma reduce_total (d : scores) (n : nat) :
  canonical d ->
  exists label, reduce d n = Ok label
                /\ In label ["Positivo"; "Negativo"; "Neutro"].
Proof.
  intros Hd. destruct n as [|n].
  - exists "Neutro". split; [reflexivity | simpl; auto].
  - destruct (reduce_canonical d (S n) Hd) as (ap & an & au & _ & ->);
      [discriminate|].
    eexists. split; [reflexivity | apply to_spanish_label].
Qed.

(** Outcomes that are positive when classified leave the other two sums
    at their initial zero. *)
Lemma fold_all_positive (os : list outcome) (a : float) (n : nat) :
  all_positive os ->
  exists a' n',
    fold_left tally_step os
      ([("positive", a); ("negative", 0%float); ("neutral", 0%float)], n)
    = ([("positive", a'); ("negative", 0%float); ("neutral", 0%float)], n').
Proof.
  revert a n. induction os as [|o os IH]; intros a n Hall; simpl; [eauto|].
  assert (Hall' : all_positive os).
  { intros o' Ho'. apply Hall. now right. }
  destruct (classified o) eqn:Ho.
  - destruct (Hall o (or_introl eq_refl) Ho) as [x ->].
    apply (IH (a + x)%float (S n) Hall').
  - rewrite tally_step_skip; [now apply IH | reflexivity | exact Ho].
Qed.

End ReduceFacts.

(** ** Classification, accumulation and the final label *)

Module SentimentClaims.
Import PyStr Vocab PyStrFacts Sentimiento ChunkerFacts AccumFacts FloatFacts ReduceFacts.

Lemma filter_skip (before after : list (string * outcome)) (c : string) (o : outcome) :
  classified o = false ->
  List.filter classified (List.map snd (before ++ (c, o) :: after))
  = List.filter classified (List.map snd (before ++ after)).
Proof.
  intros Ho. rewrite !List.map_app, !List.filter_app. simpl. now rewrite Ho.
Qed.

Lemma tally_filter (os : list outcome) :
  tally os = tally (List.filter classified os).
Proof. unfold tally. apply fold_tally_filter, canonical_initial. Qed.

(** C3: a chunk on which the classifier fails adds nothing to any sum
    and does not count; the chunks after it are handed over all the same
    (the chunks do not depend on what the classifier answers); no error
    reaches the caller; the label is the one computed from the classified
    chunks alone.  With three calls of which the second fails, the count
    is 2 and the label is the one of the first and third result. *)
Theorem failed_chunk_is_skipped {W : Type} (clf : string -> W -> outcome * W)
    (texto : string) (w : W) :
  let st := final_state clf texto w in
  let counted := List.filter classified (outcomes st) in
  submitted st = submitted (final_state always_raises texto tt)
  /\ (forall before c o after,
        calls st = (before ++ (c, o) :: after)%list -> classified o = false ->
        (sentiment_scores st, chunk_count st)
        = tally (List.map snd (before ++ after)))
  /\ (sentiment_scores st, chunk_count st) = tally counted
  /\ chunk_count st = List.length counted
  /\ analizar_sentimientos_transformers texto clf w
     = reduce (fst (tally counted)) (snd (tally counted))
  /\ (exists label,
        analizar_sentimientos_transformers texto clf w = Ok label
        /\ In label ["Positivo"; "Negativo"; "Neutro"])
  /\ (forall c1 r1 c2 e c3 r3,
        calls st = [(c1, Ok r1); (c2, Raise e); (c3, Ok r3)] ->
        classified (Ok r1) = true -> classified (Ok r3) = true ->
        chunk_count st = 2
        /\ analizar_sentimientos_transformers texto clf w
           = reduce (fst (tally [Ok r1; Ok r3])) 2).
Proof.
  intros st counted.
  pose proof (final_state_tallied clf texto w) as Htal.
  fold st in Htal. unfold tallied in Htal.
  assert (Hcounted : (sentiment_scores st, chunk_count st) = tally counted).
  { rewrite Htal. apply tally_filter. }
  split; [apply submitted_any_classifier|].
  split.
  { intros before c o after Hcalls Ho.
    rewrite Htal. unfold outcomes. rewrite Hcalls.
    rewrite tally_filter, (tally_filter (List.map snd (before ++ after))).
    now rewrite filter_skip. }
  split; [exact Hcounted|].
  split; [apply final_state_count|].
  split.
  { unfold analizar_sentimientos_transformers. fold st. now rewrite <- Hcounted. }
  split.
  { unfold analizar_sentimientos_transformers.
    apply reduce_total, final_state_canonical. }
  intros c1 r1 c2 e c3 r3 Hcalls H1 H3.
  assert (E : counted = [Ok r1; Ok r3]).
  { unfold counted, outcomes. rewrite Hcalls. simpl.
    simpl in H1, H3. now rewrite H1, H3. }
  assert (Hn : chunk_count st = 2).
  { unfold st. rewrite final_state_count. fold st. fold counted. now rewrite E. }
  split; [exact Hn|].
  unfold analizar_sentimientos_transformers. fold st.
  rewrite Hn. apply (f_equal fst) in Hcounted. simpl in Hcounted.
  now rewrite Hcounted, E.
Qed.

(** The scenario of C3 on a run: three chunks, the classifier times out
    on the second call; two chunks are counted and the label is the one
    of two results. *)
Example second_chunk_fails :
  let script := [Ok ("positive", 0.75%float); Raise (RuntimeError "timeout");
                 Ok ("positive", 0.75%float)] in
  let st := final_state scripted_classifier (long_text 3) script in
  List.map classified (outcomes st) = [true; false; true]
  /\ chunk_count st = 2
  /\ sentiment_scores st
     = [("positive", 1.5%float); ("negative", 0%float); ("neutral", 0%float)]
  /\ analizar_sentimientos_transformers (long_text 3) scripted_classifier script
     = Ok "Positivo".
Proof. vm_compute. repeat split. Qed.

Lemma all_space_split (t : string) :
  all_space t = true -> split "." t = [t].
Proof.
  induction t as [|c t IH]; simpl; [reflexivity|].
  intros H. apply andb_prop in H as [Hc Ht].
  destruct (Ascii.eqb_spec c ".") as [-> | _]; [discriminate|].
  now rewrite (IH Ht).
Qed.

Section WithClassifier.
Context {W : Type}.
Variable clf : string -> W -> outcome * W.

Lemma step_blank (st : loop_state W) (s : string) :
  strip s = "" -> step clf st s = st.
Proof. intros E. unfold step. now rewrite E. Qed.

Lemma loop_blank (l : list string) (st : loop_state W) :
  (forall s, In s l -> strip s = "") -> fold_left (step clf) l st = st.
Proof.
  revert st. induction l as [|s l IH]; intros st H; simpl; [reflexivity|].
  rewrite step_blank by (apply H; now left).
  apply IH. intros s' Hs'. apply H. now right.
Qed.

Lemma final_state_blank (texto : string) (w : W) :
  (forall s, In s (split "." texto) -> strip s = "") ->
  final_state clf texto w = initial_state w.
Proof. intros H. unfold final_state. now rewrite loop_blank. Qed.

(** What holds of every answer of the classifier holds of every
    outcome of a run. *)
Lemma flush_outcomes (Q : outcome -> Prop) (st : loop_state W) :
  (forall c v, Q (fst (clf c v))) ->
  Forall Q (outcomes st) -> Forall Q (outcomes (flush clf st)).
Proof.
  intros HQ H. unfold outcomes. rewrite flush_calls.
  destruct (truthy _); [|exact H].
  rewrite List.map_app. apply Forall_app. split; [exact H|].
  constructor; [apply HQ | constructor].
Qed.

Lemma outcomes_invariant (Q : outcome -> Prop) (texto : string) (w : W) :
  (forall c v, Q (fst (clf c v))) ->
  Forall Q (outcomes (final_state clf texto w)).
Proof.
  intros HQ. unfold final_state. apply flush_outcomes; [exact HQ|].
  assert (H0 : Forall Q (outcomes (initial_state w))) by constructor.
  revert H0. generalize (initial_state w).
  induction (split "." texto) as [|s l IH]; intros st H; simpl; [exact H|].
  apply IH. unfold step.
  destruct (Nat.eqb _ 0); [exact H|].
  destruct (Nat.ltb _ 500); [exact H|].
  now apply flush_outcomes.
Qed.

Lemma zero_count_neutral (texto : string) (w : W) :
  chunk_count (final_state clf texto w) = 0 ->
  analizar_sentimientos_transformers texto clf w = Ok "Neutro".
Proof.
  intros H. unfold analizar_sentimientos_transformers, reduce. now rewrite H.
Qed.

End WithClassifier.

(** C4: when no chunk is classified the label is "Neutro": whenever the
    count is zero; so when every call fails, and with a classifier that
    always raises; and when the body has no sentence to classify (every
    piece between terminators blank, a body of whitespace, the empty
    body), in which case the classifier is not called at all. *)
Theorem no_classified_chunk_is_neutral {W : Type} (clf : string -> W -> outcome * W)
    (texto : string) (w : W) :
  let st := final_state clf texto w in
  let neutral := analizar_sentimientos_transformers texto clf w = Ok "Neutro" in
  (chunk_count st = 0 -> neutral)
  /\ (Forall (fun o => classified o = false) (outcomes st) -> neutral)
  /\ analizar_sentimientos_transformers texto always_raises tt = Ok "Neutro"
  /\ ((forall s, In s (split "." texto) -> strip s = "") ->
      calls st = [] /\ neutral)
  /\ (all_space texto = true -> calls st = [] /\ neutral)
  /\ (texto = "" -> calls st = [] /\ neutral).
Proof.
  intros st neutral.
  assert (Hzero : chunk_count st = 0 -> neutral) by apply zero_count_neutral.
  assert (Hnone : forall {V : Type} (c : string -> V -> outcome * V) (v : V),
             Forall (fun o => classified o = false) (outcomes (final_state c texto v)) ->
             chunk_count (final_state c texto v) = 0).
  { intros V c v Hall. rewrite final_state_count.
    induction Hall as [|o os Ho _ IH]; [reflexivity|]. simpl. now rewrite Ho. }
  assert (Hblank : (forall s, In s (split "." texto) -> strip s = "") ->
                   calls st = [] /\ neutral).
  { intros H. unfold neutral, analizar_sentimientos_transformers, st.
    rewrite (final_state_blank clf texto w H). now split. }
  assert (Hspace : all_space texto = true -> calls st = [] /\ neutral).
  { intros H. apply Hblank. intros s Hs.
    rewrite (all_space_split texto H) in Hs. destruct Hs as [<- | []].
    now apply strip_empty. }
  split; [exact Hzero|].
  split; [intros Hall; apply Hzero, (Hnone W clf w Hall)|].
  split.
  { apply zero_count_neutral, Hnone.
    apply outcomes_invariant. reflexivity. }
  split; [exact Hblank|].
  split; [exact Hspace|].
  intros ->. now apply Hspace.
Qed.

End SentimentClaims.

(** ** Averages, threshold and ties *)

Module LabelClaims.
Import PyStr Vocab PyStrFacts Sentimiento ChunkerFacts AccumFacts FloatFacts ReduceFacts.

Section WithClassifier.
Context {W : Type}.
Variable clf : string -> W -> outcome * W.
Variable texto : string.
Variable w : W.

Let st := final_state clf texto w.
Let n := chunk_count st.
Let avg := quotients (sentiment_scores st) n.

(** What the function computes once a chunk has been classified. *)
Lemma run_reduces :
  n <> 0 ->
  exists ap an au,
    avg = [("positive", ap); ("negative", an); ("neutral", au)]
    /\ max_by_value avg = Ok (scan3 ap an au)
    /\ analizar_sentimientos_transformers texto clf w
       = Ok (to_spanish (scan3 ap an au)).
Proof.
  intros Hn.
  destruct (reduce_canonical (sentiment_scores st) n) as (ap & an & au & Eq & Er);
    [apply final_state_canonical | exact Hn |].
  exists ap, an, au. split; [exact Eq|]. split; [|exact Er].
  unfold avg. rewrite Eq. apply max_by_value_three.
Qed.

(** With positive results only, the other two averages are [0.0 / n]. *)
Lemma run_all_positive :
  all_positive (outcomes st) ->
  exists ap, avg = [("positive", ap);
                    ("negative", (0 / float_of_int n)%float);
                    ("neutral", (0 / float_of_int n)%float)].
Proof.
  intros Hall.
  destruct (fold_all_positive (outcomes st) 0%float 0 Hall) as (a & k & E).
  change (tally (outcomes st)
          = ([("positive", a); ("negative", 0%float); ("neutral", 0%float)], k)) in E.
  pose proof (final_state_tallied clf texto w) as Htal.
  unfold tallied in Htal. fold st in Htal.
  rewrite E in Htal. injection Htal as Hs _.
  unfold avg. rewrite Hs. eexists. apply quotients_shape.
Qed.

End WithClassifier.

(** C2: once a chunk has been classified, the average of a label is its
    sum divided by the number of classified chunks; the label returned
    is the one of the greatest average when that average is at least
    0.4, and "Neutro" when it is below 0.4.  With positive results only,
    an average equal to 0.4 gives "Positivo" and one equal to 0.39 gives
    "Neutro". *)
Theorem average_and_threshold {W : Type} (clf : string -> W -> outcome * W)
    (texto : string) (w : W) :
  let st := final_state clf texto w in
  let n := chunk_count st in
  let avg := quotients (sentiment_scores st) n in
  let result := analizar_sentimientos_transformers texto clf w in
  n <> 0 ->
  n = List.length (List.filter classified (outcomes st))
  /\ averages (sentiment_scores st) n = Ok avg
  /\ exists winner,
       max_by_value avg = Ok winner
       /\ In winner avg
       /\ (forall kv, In kv avg -> (snd winner <? snd kv)%float = false)
       /\ ((threshold <=? snd winner)%float = true ->
           result = Ok (display (fst winner)))
       /\ ((snd winner <? threshold)%float = true -> result = Ok "Neutro")
       /\ (all_positive (outcomes st) ->
           forall ap, In ("positive", ap) avg ->
             ((ap =? threshold)%float = true -> result = Ok "Positivo")
             /\ ((ap =? just_below)%float = true -> result = Ok "Neutro")).
Proof.
  intros st n avg result Hn.
  split; [apply final_state_count|].
  split; [now apply averages_quotients|].
  destruct (run_reduces clf texto w Hn) as (ap & an & au & Eavg & Emax & Eres).
  fold st n avg in Eavg, Emax. fold result in Eres.
  exists (scan3 ap an au).
  split; [exact Emax|].
  split; [rewrite Eavg; apply scan3_in|].
  split; [rewrite Eavg; apply scan3_maximal|].
  split.
  { intros Hge. rewrite Eres. f_equal.
    apply to_spanish_display. now apply leb_ltb_false. }
  split.
  { intros Hlt. rewrite Eres. f_equal. now apply to_spanish_low. }
  intros Hall x Hx.
  destruct (run_all_positive clf texto w Hall) as [ap' Eavg'].
  fold st n avg in Eavg'. rewrite Eavg in Eavg'.
  injection Eavg' as -> -> ->.
  rewrite Eavg in Hx.
  destruct Hx as [Hx | [Hx | [Hx | []]]]; try discriminate.
  injection Hx as <-.
  split; intros Heq.
  - rewrite Eres, (scan3_positive_only _ _ _ Heq) by reflexivity.
    unfold to_spanish. simpl.
    now rewrite (ltb_eqb_l _ _ _ Heq), ltb_irrefl.
  - rewrite Eres, (scan3_positive_only _ _ _ Heq) by reflexivity.
    unfold to_spanish. simpl.
    now rewrite (ltb_eqb_l _ _ _ Heq).
Qed.

Lemma average_and_threshold_witness :
  chunk_count (final_state (constant_classifier "positive" threshold)
                 "Sube el cobre." tt) <> 0
  /\ analizar_sentimientos_transformers "Sube el cobre."
       (constant_classifier "positive" threshold) tt = Ok "Positivo".
Proof.
  assert (Hn : chunk_count (final_state (constant_classifier "positive" threshold)
                              "Sube el cobre." tt) <> 0)
    by (vm_compute; discriminate).
  split; [exact Hn|].
  destruct (average_and_threshold _ _ _ Hn)
    as (_ & _ & winner & _ & _ & _ & _ & _ & Hpos).
  apply (Hpos (fun o Ho _ =>
                 match Ho with
                 | or_introl E => ex_intro _ threshold (eq_sym E)
                 | or_intror F => match F with end
                 end) threshold).
  - vm_compute. left. reflexivity.
  - vm_compute. reflexivity.
Defined.

(** The accumulation scenario of the specification: a positive chunk at
    0.9 and a negative one at 0.2 give the averages 0.45 and 0.1, and the
    label "Positivo". *)
Example two_chunks_accumulate :
  let script := [Ok ("positive", 0x1.ccccccccccccdp-1%float);
                 Ok ("negative", 0x1.999999999999ap-3%float)] in
  let st := final_state scripted_classifier (long_text 2) script in
  chunk_count st = 2
  /\ quotients (sentiment_scores st) 2
     = [("positive", 0x1.ccccccccccccdp-2%float);
        ("negative", 0x1.999999999999ap-4%float);
        ("neutral", 0%float)]
  /\ analizar_sentimientos_transformers (long_text 2) scripted_classifier script
     = Ok "Positivo".
Proof. vm_compute. repeat split. Qed.

(** The averages are those of the binary64 sums: two positive chunks at
    0.1 and 0.7 average to the number just below the threshold. *)
Example rounded_average_below_threshold :
  let script := [Ok ("positive", 0x1.999999999999ap-4%float);
                 Ok ("positive", 0x1.6666666666666p-1%float)] in
  analizar_sentimientos_transformers (long_text 2) scripted_classifier script
  = Ok "Neutro".
Proof. vm_compute. reflexivity. Qed.

(** Two or more averages at the maximum: the scan keeps the first. *)
Lemma scan3_tie (ap an au m : float) :
  (ap <=? m)%float = true -> (an <=? m)%float = true -> (au <=? m)%float = true ->
  ((ap =? m) && (an =? m) || (ap =? m) && (au =? m)
   || (an =? m) && (au =? m))%float = true ->
  (snd (scan3 ap an au) =? m)%float = true
  /\ forall l x, In (l, x) [("positive", ap); ("negative", an); ("neutral", au)] ->
                 (x =? m)%float = true -> rank (fst (scan3 ap an au)) <= rank l.
Proof.
  intros Hp Hn Hu Htwo. unfold scan3.
  destruct (ap =? m)%float eqn:Ep.
  - rewrite (ltb_eqb_l _ _ _ Ep), (leb_ltb_false _ _ Hn). simpl.
    rewrite (ltb_eqb_l _ _ _ Ep), (leb_ltb_false _ _ Hu). simpl.
    split; [exact Ep|]. intros l x _ _. apply Nat.le_0_l.
  - simpl in Htwo. apply andb_prop in Htwo as [En Eu].
    pose proof (leb_neq_ltb _ _ Hp Ep) as Hlt.
    rewrite (ltb_eqb_r ap an m En), Hlt. simpl.
    rewrite (ltb_eqb_l _ _ _ En), (leb_ltb_false _ _ Hu). simpl.
    split; [exact En|].
    intros l x [E | [E | [E | []]]] Hx; injection E as <- <-.
    + rewrite Ep in Hx. discriminate.
    + reflexivity.
    + unfold rank. simpl. lia.
Qed.

(** C6: when two or more labels share the greatest average, the label
    returned by the scan is the first of them in the order positive,
    negative, neutral; when the three averages are equal and at least
    0.4, the result is "Positivo". *)
Theorem tie_goes_to_first_label {W : Type} (clf : string -> W -> outcome * W)
    (texto : string) (w : W) :
  let st := final_state clf texto w in
  let n := chunk_count st in
  let avg := quotients (sentiment_scores st) n in
  let result := analizar_sentimientos_transformers texto clf w in
  n <> 0 ->
  List.map fst avg = ["positive"; "negative"; "neutral"]
  /\ exists winner,
       max_by_value avg = Ok winner
       /\ (forall l1 x1 l2 x2,
             In (l1, x1) avg -> In (l2, x2) avg -> l1 <> l2 ->
             (x1 =? x2)%float = true ->
             (forall kv, In kv avg -> (snd kv <=? x1)%float = true) ->
             (snd winner =? x1)%float = true
             /\ forall l x, In (l, x) avg -> (x =? x1)%float = true ->
                            rank (fst winner) <= rank l)
       /\ (forall x,
             (forall kv, In kv avg -> (snd kv =? x)%float = true) ->
             (threshold <=? x)%float = true ->
             fst winner = "positive" /\ result = Ok "Positivo").
Proof.
  intros st n avg result Hn.
  destruct (run_reduces clf texto w Hn) as (ap & an & au & Eavg & Emax & Eres).
  fold st n avg in Eavg, Emax. fold result in Eres.
  split; [now rewrite Eavg|].
  exists (scan3 ap an au). split; [exact Emax|]. rewrite Eavg. split.
  - intros l1 x1 l2 x2 H1 H2 Hne Heq Hmax.
    assert (Hp : (ap <=? x1)%float = true) by (apply (Hmax ("positive", ap)); simpl; auto).
    assert (Ha : (an <=? x1)%float = true) by (apply (Hmax ("negative", an)); simpl; auto).
    assert (Hu : (au <=? x1)%float = true) by (apply (Hmax ("neutral", au)); simpl; auto).
    assert (Hrefl : (x1 =? x1)%float = true).
    { apply leb_eqb_refl. apply (Hmax (l1, x1) H1). }
    rewrite eqb_sym in Heq.
    apply scan3_tie; try assumption.
    destruct H1 as [E1 | [E1 | [E1 | []]]]; injection E1 as <- <-;
      destruct H2 as [E2 | [E2 | [E2 | []]]]; injection E2 as <- <-;
      try (now elim Hne); rewrite ?Hrefl, ?Heq; simpl;
      rewrite ?orb_true_r, ?andb_true_r; reflexivity.
  - intros x Hall Hge.
    assert (Ep : (ap =? x)%float = true) by (apply (Hall ("positive", ap)); simpl; auto).
    assert (Ea : (an =? x)%float = true) by (apply (Hall ("negative", an)); simpl; auto).
    assert (Eu : (au =? x)%float = true) by (apply (Hall ("neutral", au)); simpl; auto).
    assert (E : scan3 ap an au = ("positive", ap)).
    { unfold scan3.
      rewrite (ltb_eqb_r ap an x Ea), (eqb_ltb_false _ _ Ep). simpl.
      now rewrite (ltb_eqb_r ap au x Eu), (eqb_ltb_false _ _ Ep). }
    rewrite Eres, E. split; [reflexivity|]. f_equal.
    unfold to_spanish. simpl.
    now rewrite (ltb_eqb_l _ _ _ Ep), (leb_ltb_false _ _ Hge).
Qed.

(** A tie on a run: a positive and a negative chunk, both at 0.9, give
    two averages of 0.45; the winner is [positive]. *)
Lemma tie_goes_to_first_label_witness :
  let script := [Ok ("negative", 0x1.ccccccccccccdp-1%float);
                 Ok ("positive", 0x1.ccccccccccccdp-1%float)] in
  let st := final_state scripted_classifier (long_text 2) script in
  chunk_count st <> 0
  /\ exists winner,
       max_by_value (quotients (sentiment_scores st) (chunk_count st)) = Ok winner
       /\ rank (fst winner) <= rank "positive".
Proof.
  intros script st.
  assert (Hn : chunk_count st <> 0) by (vm_compute; discriminate).
  split; [exact Hn|].
  destruct (tie_goes_to_first_label scripted_classifier (long_text 2) script Hn)
    as (_ & winner & Hmax & Htie & _).
  exists winner. split; [exact Hmax|].
  refine (proj2 (Htie "negative" 0x1.ccccccccccccdp-2%float
                      "positive" 0x1.ccccccccccccdp-2%float _ _ _ _ _)
                "positive" 0x1.ccccccccccccdp-2%float _ _).
  - vm_compute. right. left. reflexivity.
  - vm_compute. left. reflexivity.
  - discriminate.
  - vm_compute. reflexivity.
  - vm_compute. intros kv [<- | [<- | [<- | []]]]; reflexivity.
  - vm_compute. left. reflexivity.
  - vm_compute. reflexivity.
Defined.

Example tie_on_a_run :
  let script := [Ok ("negative", 0x1.ccccccccccccdp-1%float);
                 Ok ("positive", 0x1.ccccccccccccdp-1%float)] in
  analizar_sentimientos_transformers (long_text 2) scripted_classifier script
  = Ok "Positivo".
Proof. vm_compute. reflexivity. Qed.

End LabelClaims.

(** ** Repair, filter and duplicate removal *)

Module CleanFacts.
Import PyStr PyStrFacts CleanNews RecordVocab.
Local Open Scope list_scope.

Lemma has_field_filled (it : item) (key : string) :
  has_field it key = true <-> filled it key.
Proof.
  unfold has_field, filled. split.
  - destruct (it !! key) as [[| | | |s| |]|]; simpl; intros H;
      try discriminate; try (apply andb_prop in H as [_ H]; discriminate).
    exists s. split; [reflexivity|]. intros ->. discriminate.
  - intros (s & -> & Hs). simpl. destruct s; [now elim Hs | reflexivity].
Qed.

Lemma is_valid_filled (it : item) :
  is_valid it = true <-> forall key, In key required_fields -> filled it key.
Proof.
  unfold is_valid. rewrite forallb_forall.
  split; intros H key Hk; apply has_field_filled, H, Hk.
Qed.

Lemma valid_title (it : item) :
  is_valid it = true -> title_key it = Ok (title_of it).
Proof.
  intros H. destruct (proj1 (is_valid_filled it) H "title") as (s & E & _).
  { simpl. auto. }
  unfold title_of, title_key, str_field. now rewrite E.
Qed.

Lemma valid_link (it : item) :
  is_valid it = true -> link_key it = Ok (link_of it).
Proof.
  intros H. destruct (proj1 (is_valid_filled it) H "link") as (s & E & _).
  { simpl. auto. }
  unfold link_of, link_key, str_field. now rewrite E.
Qed.

Section Repair.
Variable fix_text : string -> string.

Lemma fix_key_lookup (it : item) (key k : string) :
  fix_key fix_text it key !! k
  = if decide (k = key)
    then match it !! k with
         | Some (JStr s) => Some (JStr (strip (fix_text s)))
         | o => o
         end
    else it !! k.
Proof.
  unfold fix_key. destruct (decide (k = key)) as [-> | Hne].
  - destruct (it !! key) as [[| | | |s| |]|] eqn:E; rewrite ?E; try reflexivity.
    apply lookup_insert_eq.
  - destruct (it !! key) as [[| | | |s| |]|]; try reflexivity.
    now apply lookup_insert_ne.
Qed.

(** The repaired record, key by key. *)
Lemma fix_item_lookup (it : item) (k : string) :
  fix_item fix_text it !! k = fix_value fix_text k <$> it !! k.
Proof.
  unfold fix_item, text_fields. simpl. rewrite !fix_key_lookup.
  unfold fix_value.
  destruct (decide (k = "link")) as [-> | Hl].
  { simpl. destruct (it !! "link") as [[| | | |s| |]|]; reflexivity. }
  destruct (decide (k = "content")) as [-> | Hc].
  { simpl. destruct (it !! "content") as [[| | | |s| |]|]; reflexivity. }
  destruct (decide (k = "title")) as [-> | Ht].
  { simpl. destruct (it !! "title") as [[| | | |s| |]|]; reflexivity. }
  destruct (it !! k) as [[| | | |s| |]|]; try reflexivity. simpl.
  rewrite bool_decide_eq_false_2; [reflexivity|].
  intros H. apply list_elem_of_In in H. simpl in H. intuition congruence.
Qed.

Lemma valid_data_in (data : list item) (it : item) :
  In it (valid_data fix_text data)
  <-> (exists raw, In raw data /\ it = fix_item fix_text raw) /\ is_valid it = true.
Proof.
  unfold valid_data. rewrite filter_In, in_map_iff.
  split; intros [(raw & H1 & H2) Hv]; (split; [exists raw|]); auto.
Qed.

(** When repair followed by trimming is idempotent, a repaired record
    is left as it is by a second repair. *)
Lemma fix_item_idem (it : item) :
  (forall s, strip (fix_text (strip (fix_text s))) = strip (fix_text s)) ->
  fix_item fix_text (fix_item fix_text it) = fix_item fix_text it.
Proof.
  intros Hidem. apply map_eq. intros k. rewrite !fix_item_lookup.
  destruct (it !! k) as [v|]; [|reflexivity]. simpl. f_equal.
  unfold fix_value. destruct v; try reflexivity.
  destruct (bool_decide (k ∈ text_fields)) eqn:E; rewrite ?E; [|reflexivity].
  now rewrite Hidem.
Qed.

End Repair.

(** *** The duplicate filter *)

Lemma in_list_to_set (x : string) (l : list string) :
x ∈ (list_to_set l : gset string) <-> x ∈ l.
Proof. apply elem_of_list_to_set. Qed.

Lemma state_of_snoc (kept : list item) (it : item) :
DedupState ({[title_of it]} ∪ list_to_set (List.map title_of kept))
           ({[link_of it]} ∪ list_to_set (List.map link_of kept))
           (kept ++ [it])
= state_of (kept ++ [it]).
Proof.
unfold state_of. rewrite !List.map_app. simpl.
f_equal; apply set_eq; intros x;
  rewrite elem_of_union, elem_of_singleton, !in_list_to_set, elem_of_app,
    list_elem_of_singleton; tauto.
Qed.

(** One turn on a record that passed the required-fields check. *)
Lemma dedup_step_valid (kept : list item) (it : item) :
is_valid it = true ->
dedup_step (state_of kept) it
= Ok (state_of (if decide (fresh kept it) then kept ++ [it] else kept)).
Proof.
intros Hv. unfold dedup_step.
rewrite (valid_title it Hv), (valid_link it Hv). cbn [res_bind].
cbn [seen_titles seen_links unique_data state_of].
destruct (decide (fresh kept it)) as [[Ht Hl] | Hnot].
- rewrite !bool_decide_eq_false_2 by (rewrite in_list_to_set; assumption).
  simpl. f_equal. apply state_of_snoc.
- destruct (bool_decide (title_of it ∈ _)) eqn:Et; [reflexivity|].
  destruct (bool_decide (link_of it ∈ _)) eqn:El; [reflexivity|].
  apply bool_decide_eq_false in Et, El. rewrite in_list_to_set in Et, El.
  elim Hnot. now split.
Qed.

Lemma dedup_loop_valid (items kept : list item) :
Forall (fun it => is_valid it = true) items ->
dedup_loop (state_of kept) items = Ok (state_of (keep kept items)).
Proof.
revert kept. induction items as [|it rest IH]; intros kept Hall; simpl.
- reflexivity.
- inversion Hall as [|? ? Hv Hrest]; subst.
  rewrite (dedup_step_valid kept it Hv). cbn [res_bind]. now apply IH.
Qed.

Lemma keep_app (kept a b : list item) :
keep kept (a ++ b) = keep (keep kept a) b.
Proof.
revert kept. induction a as [|it a IH]; intros kept; simpl; [reflexivity|].
apply IH.
Qed.

(** The loop only appends, and what it appends comes from the input in
  the order of the input. *)
Lemma keep_extends (items kept : list item) :
exists added, keep kept items = kept ++ added /\ added `sublist_of` items.
Proof.
revert kept. induction items as [|it rest IH]; intros kept; simpl.
- exists []. now rewrite List.app_nil_r.
- destruct (decide (fresh kept it)).
  + destruct (IH (kept ++ [it])) as (added & -> & Hsub).
    exists (it :: added). rewrite <- List.app_assoc. split; [reflexivity|].
    now constructor.
  + destruct (IH kept) as (added & -> & Hsub).
    exists added. split; [reflexivity|]. now constructor.
Qed.

Lemma distinct_keys_snoc (kept : list item) (it : item) :
distinct_keys kept -> fresh kept it -> distinct_keys (kept ++ [it]).
Proof.
intros [Ht Hl] [Ft Fl]. unfold distinct_keys. rewrite !List.map_app. simpl.
split; apply NoDup_app; repeat split; try assumption;
  try (apply NoDup_singleton);
  intros x Hx Hx'; apply list_elem_of_singleton in Hx'; subst x;
  contradiction.
Qed.

Lemma keep_distinct (items kept : list item) :
distinct_keys kept -> distinct_keys (keep kept items).
Proof.
revert kept. induction items as [|it rest IH]; intros kept H; simpl; [exact H|].
apply IH. destruct (decide (fresh kept it)); [now apply distinct_keys_snoc | exact H].
Qed.

(** A list with pairwise different keys is kept whole. *)
Lemma keep_all (items kept : list item) :
distinct_keys (kept ++ items) -> keep kept items = kept ++ items.
Proof.
revert kept. induction items as [|it rest IH]; intros kept H; simpl.
- now rewrite List.app_nil_r.
- assert (E : kept ++ it :: rest = (kept ++ [it]) ++ rest)
    by now rewrite <- List.app_assoc.
  destruct (decide (fresh kept it)) as [_ | Hnot].
  + rewrite E in H. rewrite (IH _ H). now rewrite <- List.app_assoc.
  + elim Hnot. destruct H as [Ht Hl].
    rewrite !List.map_app in Ht, Hl. simpl in Ht, Hl.
    apply NoDup_app in Ht as (_ & Ht & _), Hl as (_ & Hl & _).
    split; intros Hin.
    * apply (Ht _ Hin). now left.
    * apply (Hl _ Hin). now left.
Qed.

End CleanFacts.

(** ** The Normalizer *)

Module CleanClaims.
Import PyStr PyStrFacts CleanNews RecordVocab CleanFacts.
Local Open Scope list_scope.

Section WithRepair.
Variable fix_text : string -> string.

Lemma valid_data_valid (data : list item) :
  Forall (fun it => is_valid it = true) (valid_data fix_text data).
Proof.
  apply List.Forall_forall. intros it Hin.
  now apply (valid_data_in fix_text) in Hin as [_ Hv].
Qed.

(** On the records that passed the check the loop never raises, and the
    list written is the one [keep] gives. *)
Lemma clean_news_data_keep (data : list item) :
  clean_news_data fix_text data = Ok (keep [] (valid_data fix_text data)).
Proof.
  unfold clean_news_data. change dedup_init with (state_of []).
  rewrite dedup_loop_valid by apply valid_data_valid. reflexivity.
Qed.

Lemma keep_sublist (items : list item) : keep [] items `sublist_of` items.
Proof. destruct (keep_extends items []) as (added & -> & H). exact H. Qed.

Lemma output_in_valid (data : list item) (it : item) :
  In it (keep [] (valid_data fix_text data)) -> In it (valid_data fix_text data).
Proof.
  intros H. apply list_elem_of_In. apply list_elem_of_In in H.
  eapply elem_of_sublist; [exact H | apply keep_sublist].
Qed.

Lemma output_distinct (items : list item) : distinct_keys (keep [] items).
Proof. apply keep_distinct. split; constructor. Qed.

End WithRepair.

Lemma title_of_text (it : item) (s : string) :
  it !! "title" = Some (JStr s) -> title_of it = lower (strip s).
Proof. intros E. unfold title_of, title_key, str_field. now rewrite E. Qed.

Lemma link_of_text (it : item) (s : string) :
  it !! "link" = Some (JStr s) -> link_of it = lower (strip s).
Proof. intros E. unfold link_of, link_key, str_field. now rewrite E. Qed.

(** C5: a record that passed the required-fields check is kept exactly
    when neither its title key nor its link key is the key of a record
    kept before it; a kept record adds both keys to the seen sets and is
    appended to the output, a dropped one changes nothing; the output is
    in the order of the input.  Two records with the titles "A" and "a"
    and different links give one record, the first. *)
Theorem first_occurrence_wins (fix_text : string -> string) (data : list item) :
  let valid := valid_data fix_text data in
  exists out,
    clean_news_data fix_text data = Ok out
    /\ out `sublist_of` valid
    /\ (forall before it after,
          valid = before ++ it :: after ->
          exists st st' st'' t l,
            dedup_loop dedup_init before = Ok st
            /\ dedup_step st it = Ok st'
            /\ dedup_loop st' after = Ok st''
            /\ out = unique_data st''
            /\ it !! "title" = Some (JStr t) /\ title_of it = lower (strip t)
            /\ it !! "link" = Some (JStr l) /\ link_of it = lower (strip l)
            /\ seen_titles st = list_to_set (List.map title_of (unique_data st))
            /\ seen_links st = list_to_set (List.map link_of (unique_data st))
            /\ (fresh (unique_data st) it ->
                st' = DedupState ({[title_of it]} ∪ seen_titles st)
                                 ({[link_of it]} ∪ seen_links st)
                                 (unique_data st ++ [it]))
            /\ (~ fresh (unique_data st) it -> st' = st)
            /\ exists later, out = unique_data st' ++ later)
    /\ (forall r1 r2 : item,
          r1 !! "title" = Some (JStr "A") -> r1 !! "link" = Some (JStr "http://x/1") ->
          r2 !! "title" = Some (JStr "a") -> r2 !! "link" = Some (JStr "http://x/2") ->
          fix_text "A" = "A" -> fix_text "a" = "a" ->
          is_valid (fix_item fix_text r1) = true ->
          is_valid (fix_item fix_text r2) = true ->
          clean_news_data fix_text [r1; r2] = Ok [fix_item fix_text r1]).
Proof.
  intros valid. exists (keep [] valid).
  split; [apply clean_news_data_keep|].
  split; [apply keep_sublist|].
  split.
  - intros before it after Hsplit.
    pose proof (valid_data_valid fix_text data) as Hall. fold valid in Hall.
    rewrite Hsplit in Hall. apply Forall_app in Hall as [Hb Hrest].
    inversion Hrest as [|? ? Hv Ha]; subst.
    set (kept := keep [] before).
    set (kept' := if decide (fresh kept it) then kept ++ [it] else kept).
    destruct (proj1 (is_valid_filled it) Hv "title") as (t & Et & _); [simpl; auto|].
    destruct (proj1 (is_valid_filled it) Hv "link") as (l & El & _); [simpl; auto|].
    exists (state_of kept), (state_of kept'), (state_of (keep kept' after)), t, l.
    split; [change dedup_init with (state_of []); now apply dedup_loop_valid|].
    split; [now apply dedup_step_valid|].
    split; [now apply dedup_loop_valid|].
    assert (Hout : keep [] valid = keep kept' after).
    { rewrite Hsplit, keep_app. reflexivity. }
    split; [exact Hout|].
    split; [exact Et|]. split; [now apply title_of_text|].
    split; [exact El|]. split; [now apply link_of_text|].
    split; [reflexivity|]. split; [reflexivity|].
    split; [|split].
    + intros Hf. unfold kept'. rewrite decide_True by exact Hf.
      symmetry. apply state_of_snoc.
    + intros Hf. unfold kept'. now rewrite decide_False by exact Hf.
    + destruct (keep_extends after kept') as (later & E & _).
      exists later. now rewrite Hout.
  - intros r1 r2 T1 L1 T2 L2 FA Fa V1 V2.
    rewrite clean_news_data_keep. f_equal.
    unfold valid_data. cbn [List.map List.filter]. rewrite V1, V2.
    assert (K1 : title_of (fix_item fix_text r1) = "a").
    { apply (title_of_text _ (strip "A")).
      rewrite fix_item_lookup, T1. simpl. now rewrite FA. }
    assert (K2 : title_of (fix_item fix_text r2) = "a").
    { apply (title_of_text _ (strip "a")).
      rewrite fix_item_lookup, T2. simpl. now rewrite Fa. }
    assert (F1 : fresh [] (fix_item fix_text r1))
      by (split; apply not_elem_of_nil).
    assert (F2 : ~ fresh [fix_item fix_text r1] (fix_item fix_text r2)).
    { intros [Ht _]. apply Ht. simpl. rewrite K1, K2. now left. }
    cbn [keep]. rewrite (decide_True _ _ F1). cbn [app].
    now rewrite (decide_False _ _ F2).
Qed.

(** The dedup example of the specification on two complete records, the
    repair being the identity. *)
Example same_title_other_case :
  clean_news_data (fun s => s)
    [article "A" "texto" "http://x/1" "http://x/1.png";
     article "a" "otro texto" "http://x/2" "http://x/2.png"]
  = Ok [article "A" "texto" "http://x/1" "http://x/1.png"].
Proof. vm_compute. reflexivity. Qed.

(** C8: two records at different places of the output differ in their
    title keys and differ in their link keys. *)
Theorem output_keys_distinct (fix_text : string -> string) (data : list item) :
  exists out,
    clean_news_data fix_text data = Ok out
    /\ forall i j A B,
         out !! i = Some A -> out !! j = Some B -> i <> j ->
         exists ta tb la lb,
           title_key A = Ok ta /\ title_key B = Ok tb
           /\ link_key A = Ok la /\ link_key B = Ok lb
           /\ ta <> tb /\ la <> lb.
Proof.
  exists (keep [] (valid_data fix_text data)).
  split; [apply clean_news_data_keep|].
  intros i j A B HA HB Hij.
  assert (Hvalid : forall X k, keep [] (valid_data fix_text data) !! k = Some X ->
                               is_valid X = true).
  { intros X k HX.
    assert (Hin : In X (valid_data fix_text data)).
    { apply output_in_valid, list_elem_of_In, list_elem_of_lookup. eauto. }
    now apply (valid_data_in fix_text) in Hin as [_ Hv]. }
  exists (title_of A), (title_of B), (link_of A), (link_of B).
  split; [eapply valid_title, Hvalid, HA|].
  split; [eapply valid_title, Hvalid, HB|].
  split; [eapply valid_link, Hvalid, HA|].
  split; [eapply valid_link, Hvalid, HB|].
  destruct (output_distinct (valid_data fix_text data)) as [Nt Nl].
  split; intros E; apply Hij.
  - apply (NoDup_lookup _ i j (title_of A) Nt).
    + change (List.map title_of ?l) with (title_of <$> l).
      now rewrite list_lookup_fmap, HA.
    + change (List.map title_of ?l) with (title_of <$> l).
      now rewrite list_lookup_fmap, HB, E.
  - apply (NoDup_lookup _ i j (link_of A) Nl).
    + change (List.map link_of ?l) with (link_of <$> l).
      now rewrite list_lookup_fmap, HA.
    + change (List.map link_of ?l) with (link_of <$> l).
      now rewrite list_lookup_fmap, HB, E.
Qed.

(** C9: every record of the output is the repair of a record of the
    input, and has its four required fields present, of text type and not
    empty. *)
Theorem output_fields_filled (fix_text : string -> string) (data : list item) :
  exists out,
    clean_news_data fix_text data = Ok out
    /\ forall it, In it out ->
         (exists raw, In raw data /\ it = fix_item fix_text raw)
         /\ forall key, In key required_fields -> filled it key.
Proof.
  exists (keep [] (valid_data fix_text data)).
  split; [apply clean_news_data_keep|].
  intros it Hin. apply output_in_valid in Hin.
  apply (valid_data_in fix_text) in Hin as [Hraw Hv].
  split; [exact Hraw|]. now apply is_valid_filled.
Qed.

(** C7: when repair followed by trimming is idempotent, a second run on
    the output drops no record for a missing field, drops none as a
    duplicate, and gives the output again. *)
Theorem normalizer_idempotent (fix_text : string -> string) (data : list item) :
  (forall s, strip (fix_text (strip (fix_text s))) = strip (fix_text s)) ->
  exists out,
    clean_news_data fix_text data = Ok out
    /\ List.map (fix_item fix_text) out = out
    /\ valid_data fix_text out = out
    /\ clean_news_data fix_text out = Ok out.
Proof.
  intros Hidem. set (out := keep [] (valid_data fix_text data)).
  exists out. split; [apply clean_news_data_keep|].
  assert (Hall : Forall (fun it => fix_item fix_text it = it /\ is_valid it = true) out).
  { apply List.Forall_forall. intros it Hin. apply output_in_valid in Hin.
    apply (valid_data_in fix_text) in Hin as [(raw & _ & ->) Hv].
    split; [now apply fix_item_idem | exact Hv]. }
  assert (Hmap : List.map (fix_item fix_text) out = out).
  { clear -Hall. induction Hall as [|it l [E _] _ IH]; simpl; [reflexivity|].
    now rewrite E, IH. }
  assert (Hvalid : valid_data fix_text out = out).
  { unfold valid_data. rewrite Hmap. apply forallb_filter_id.
    apply forallb_forall. intros it Hin.
    rewrite List.Forall_forall in Hall. now apply Hall. }
  split; [exact Hmap|]. split; [exact Hvalid|].
  rewrite clean_news_data_keep, Hvalid. f_equal.
  apply (keep_all out []). apply output_distinct.
Qed.

Lemma normalizer_idempotent_witness :
  (forall s, strip (strip s) = strip s)
  /\ exists out,
       clean_news_data (fun s => s)
         [article " A " "texto" "http://x/1" "http://x/1.png";
          article "a" "otro texto" "http://x/2" "http://x/2.png"] = Ok out
       /\ List.map (fix_item (fun s => s)) out = out
       /\ valid_data (fun s => s) out = out
       /\ clean_news_data (fun s => s) out = Ok out.
Proof.
  split; [exact strip_idem|].
  exact (normalizer_idempotent (fun s => s) _ strip_idem).
Defined.

End CleanClaims.

(** ** Further properties of the chunking *)

Module PartitionFacts.
Import PyStr Vocab PyStrFacts Sentimiento ChunkerFacts ChunkClaims MoreVocab.
Local Open Scope list_scope.

Lemma join_sentences_empty (ss : list string) :
  join_sentences ss = ""%string <-> ss = [].
Proof.
  split; [|now intros ->].
  destruct ss as [|s ss]; [reflexivity|]. simpl. intros E.
  apply (f_equal len) in E. rewrite !len_app in E. simpl in E. lia.
Qed.

Section WithClassifier.
Context {W : Type}.
Variable clf : string -> W -> outcome * W.


Lemma flush_grouped (st : loop_state W) (done : list string) :
  grouped st done ->
  exists groups,
    submitted (flush clf st) = List.map join_sentences groups
    /\ Forall (fun g => g <> []) groups
    /\ concat groups = done.
Proof.
  intros (groups & cur & Hs & Hne & Hc & Hd).
  unfold submitted. rewrite flush_calls.
  destruct (truthy (current_chunk st)) eqn:Et.
  - exists (groups ++ [cur]). rewrite !List.map_app. simpl.
    unfold submitted in Hs. rewrite Hs, Hc. split; [reflexivity|]. split.
    + apply Forall_app. split; [exact Hne|]. constructor; [|constructor].
      intros ->. rewrite Hc in Et. discriminate.
    + rewrite concat_app. simpl. now rewrite List.app_nil_r.
  - exists groups. split; [exact Hs|]. split; [exact Hne|].
    assert (E : cur = []).
    { apply join_sentences_empty. rewrite <- Hc.
      destruct (current_chunk st); [reflexivity | discriminate]. }
    subst cur. now rewrite List.app_nil_r in Hd.
Qed.

Lemma step_grouped (st : loop_state W) (done : list string) (s : string) :
  grouped st done ->
  grouped (step clf st s)
          (done ++ if negb (Nat.eqb (len (strip s)) 0) then [s] else []).
Proof.
  intros H. unfold step.
  destruct (Nat.eqb (len (strip s)) 0); simpl; [now rewrite List.app_nil_r|].
  destruct (Nat.ltb _ 500).
  - destruct H as (groups & cur & Hs & Hne & Hc & Hd).
    exists groups, (cur ++ [s]). split; [exact Hs|]. split; [exact Hne|]. split.
    + simpl. rewrite Hc, join_sentences_app. reflexivity.
    + now rewrite List.app_assoc, Hd.
  - destruct (flush_grouped st done H) as (groups & Hs & Hne & Hd).
    exists groups, [s]. split; [exact Hs|]. split; [exact Hne|]. split.
    + reflexivity.
    + now rewrite Hd.
Qed.

Lemma loop_grouped (l : list string) (st : loop_state W) (done : list string) :
  grouped st done ->
  grouped (fold_left (step clf) l st)
          (done ++ List.filter (fun s => negb (Nat.eqb (len (strip s)) 0)) l).
Proof.
  revert st done. induction l as [|s l IH]; intros st done H; simpl.
  - now rewrite List.app_nil_r.
  - apply (step_grouped st done s) in H. apply IH in H.
    destruct (negb (Nat.eqb (len (strip s)) 0)); simpl.
    + now rewrite <- List.app_assoc in H.
    + now rewrite List.app_nil_r in H.
Qed.

Lemma final_state_grouped (texto : string) (w : W) :
  exists groups,
    submitted (final_state clf texto w) = List.map join_sentences groups
    /\ Forall (fun g => g <> []) groups
    /\ concat groups = spoken texto.
Proof.
  unfold final_state. apply flush_grouped.
  apply (loop_grouped (split "." texto) (initial_state w) []).
  exists [], []. repeat split; constructor.
Qed.

End WithClassifier.

Lemma join_concat (groups : list (list string)) :
  String.concat "" (List.map join_sentences groups)
  = join_sentences (concat groups).
Proof.
  induction groups as [|g groups IH]; [reflexivity|].
  cbn [List.map concat]. rewrite join_sentences_app, <- IH.
  destruct groups as [|g' groups]; [|reflexivity].
  simpl. clear. induction (join_sentences g) as [|c s IHs]; [reflexivity|].
  now rewrite app_cons, <- IHs.
Qed.

Lemma length_concat_nonempty (groups : list (list string)) :
  Forall (fun g => g <> []) groups ->
  List.length groups <= List.length (concat groups).
Proof.
  induction 1 as [|g groups Hg _ IH]; simpl; [lia|].
  rewrite List.length_app. destruct g; [now elim Hg | simpl; lia].
Qed.

(** X1: every sentence that is not blank is handed to the classifier exactly
    once and in the order of the text: the chunks, put end to end, are
    those sentences, each followed by the terminator. *)
Theorem chunks_partition_the_sentences {W : Type}
    (clf : string -> W -> outcome * W) (texto : string) (w : W) :
  String.concat "" (submitted (final_state clf texto w))
  = join_sentences (spoken texto).
Proof.
  destruct (final_state_grouped clf texto w) as (groups & -> & _ & <-).
  apply join_concat.
Qed.

(** X2: the classifier is called at most once per sentence that is not
    blank, and at least once when there is such a sentence. *)
Theorem calls_bounded_by_sentences {W : Type}
    (clf : string -> W -> outcome * W) (texto : string) (w : W) :
  List.length (calls (final_state clf texto w)) <= List.length (spoken texto)
  /\ (calls (final_state clf texto w) = [] <-> spoken texto = []).
Proof.
  destruct (final_state_grouped clf texto w) as (groups & Hs & Hne & Hc).
  assert (Hlen : List.length (calls (final_state clf texto w)) = List.length groups).
  { unfold submitted in Hs. apply (f_equal (@List.length _)) in Hs.
    now rewrite !List.length_map in Hs. }
  split.
  - rewrite Hlen, <- Hc. now apply length_concat_nonempty.
  - split; intros E.
    + rewrite E in Hlen. destruct groups; [now rewrite <- Hc | discriminate].
    + rewrite E in Hc. pose proof (length_concat_nonempty groups Hne) as Hle.
      rewrite Hc in Hle. simpl in Hle.
      destruct (calls (final_state clf texto w)); [reflexivity | simpl in Hlen; lia].
Qed.

Lemma len_join_app (a b : list string) :
  len (join_sentences (a ++ b)) = len (join_sentences a) + len (join_sentences b).
Proof. now rewrite join_sentences_app, len_app. Qed.

Section ShortText.
Context {W : Type}.
Variable clf : string -> W -> outcome * W.

Lemma loop_short (l : list string) (st : loop_state W) (done : list string) :
  calls st = [] -> current_chunk st = join_sentences done ->
  len (join_sentences
         (done ++ List.filter (fun s => negb (Nat.eqb (len (strip s)) 0)) l)) <= 500 ->
  let st' := fold_left (step clf) l st in
  calls st' = []
  /\ current_chunk st'
     = join_sentences
         (done ++ List.filter (fun s => negb (Nat.eqb (len (strip s)) 0)) l).
Proof.
  revert st done. induction l as [|s l IH]; intros st done Hc Hcur Hlen; simpl.
  - now rewrite List.app_nil_r.
  - simpl in Hlen. unfold step at 2 4.
    destruct (Nat.eqb (len (strip s)) 0) eqn:Eb; simpl in *.
    + now apply IH.
    + assert (Hfit : len (current_chunk st) + len s < 500).
      { rewrite Hcur. rewrite len_join_app in Hlen. simpl in Hlen.
        rewrite !len_app in Hlen. simpl in Hlen. lia. }
      apply Nat.ltb_lt in Hfit. rewrite Hfit.
      specialize (IH (set_chunk st (current_chunk st ++ s ++ ".")%string)
                     (done ++ [s])).
      rewrite <- List.app_assoc in IH. simpl in IH. apply IH.
      * exact Hc.
      * rewrite Hcur, join_sentences_app. reflexivity.
      * exact Hlen.
Qed.

End ShortText.

(** X3: an article whose sentences, with their terminators, make up at most
    500 characters is classified in one call, on all of them at once. *)
Theorem short_text_is_one_chunk {W : Type}
    (clf : string -> W -> outcome * W) (texto : string) (w : W) :
  spoken texto <> [] ->
  len (join_sentences (spoken texto)) <= 500 ->
  submitted (final_state clf texto w) = [join_sentences (spoken texto)].
Proof.
  intros Hne Hlen. unfold final_state.
  destruct (loop_short clf (split "." texto) (initial_state w) [])
    as [Hcalls Hcur]; [reflexivity | reflexivity | exact Hlen |].
  simpl in Hcur. fold (spoken texto) in Hcur.
  unfold submitted. rewrite flush_calls, Hcalls, Hcur.
  destruct (join_sentences (spoken texto)) eqn:E; [|reflexivity].
  apply join_sentences_empty in E. contradiction.
Qed.

Lemma short_text_is_one_chunk_witness :
  spoken "Sube el cobre.  . Baja el dolar." <> []
  /\ len (join_sentences (spoken "Sube el cobre.  . Baja el dolar.")) <= 500
  /\ submitted (final_state (constant_classifier "positive" 0.75)
                  "Sube el cobre.  . Baja el dolar." tt)
     = [join_sentences (spoken "Sube el cobre.  . Baja el dolar.")].
Proof.
  assert (H1 : spoken "Sube el cobre.  . Baja el dolar." <> [])
    by (vm_compute; discriminate).
  assert (H2 : len (join_sentences (spoken "Sube el cobre.  . Baja el dolar.")) <= 500)
    by (vm_compute; lia).
  split; [exact H1|]. split; [exact H2|].
  exact (short_text_is_one_chunk _ _ tt H1 H2).
Defined.

End PartitionFacts.

Module LabelExtras.
Import PyStr Vocab PyStrFacts Sentimiento ChunkerFacts AccumFacts FloatFacts.
Import ReduceFacts SentimentClaims LabelClaims MoreVocab.
Local Open Scope list_scope.

Lemma loop_skips_blank {W : Type} (clf : string -> W -> outcome * W)
    (l : list string) (st : loop_state W) :
  fold_left (step clf) l st
  = fold_left (step clf)
      (List.filter (fun s => negb (Nat.eqb (len (strip s)) 0)) l) st.
Proof.
  revert st. induction l as [|s l IH]; intros st; simpl; [reflexivity|].
  destruct (Nat.eqb (len (strip s)) 0) eqn:E; simpl.
  - unfold step at 2. rewrite E. apply IH.
  - apply IH.
Qed.

(** X4: only the sentences that are not blank count: two texts with the same
    such sentences (they differ in blank pieces, repeated terminators or
    a final terminator) are chunked alike and get the same label from the
    same classifier. *)
Theorem label_depends_on_spoken_sentences {W : Type}
    (clf : string -> W -> outcome * W) (texto1 texto2 : string) (w : W) :
  spoken texto1 = spoken texto2 ->
  final_state clf texto1 w = final_state clf texto2 w
  /\ analizar_sentimientos_transformers texto1 clf w
     = analizar_sentimientos_transformers texto2 clf w.
Proof.
  intros E.
  assert (H : final_state clf texto1 w = final_state clf texto2 w).
  { unfold final_state. rewrite (loop_skips_blank clf (split "." texto1)),
      (loop_skips_blank clf (split "." texto2)).
    fold (spoken texto1) (spoken texto2). now rewrite E. }
  split; [exact H|]. unfold analizar_sentimientos_transformers. now rewrite H.
Qed.

Lemma label_depends_on_spoken_sentences_witness :
  spoken "Sube el cobre. Baja el dolar" = spoken "Sube el cobre.. Baja el dolar.  ."
  /\ analizar_sentimientos_transformers "Sube el cobre. Baja el dolar"
       (constant_classifier "negative" 0.75) tt
     = analizar_sentimientos_transformers "Sube el cobre.. Baja el dolar.  ."
         (constant_classifier "negative" 0.75) tt.
Proof.
  assert (E : spoken "Sube el cobre. Baja el dolar"
              = spoken "Sube el cobre.. Baja el dolar.  .")
    by (vm_compute; reflexivity).
  split; [exact E|].
  exact (proj2 (label_depends_on_spoken_sentences _ _ _ tt E)).
Defined.

(** X5: a polarity is reported only with confidence: when the label is not
    "Neutro", a chunk was classified, the label with the greatest average
    is [positive] or [negative], its average is not below 0.4, and the
    label returned is its display form. *)
Theorem polarity_needs_confidence {W : Type}
    (clf : string -> W -> outcome * W) (texto : string) (w : W) (label : string) :
  let st := final_state clf texto w in
  let avg := quotients (sentiment_scores st) (chunk_count st) in
  analizar_sentimientos_transformers texto clf w = Ok label ->
  label <> "Neutro"%string ->
  chunk_count st <> 0
  /\ exists winner,
       max_by_value avg = Ok winner
       /\ (snd winner <? threshold)%float = false
       /\ (fst winner = "positive"%string \/ fst winner = "negative"%string)
       /\ label = display (fst winner).
Proof.
  intros st avg Hres Hne.
  assert (Hn : chunk_count st <> 0).
  { intros E. rewrite (zero_count_neutral clf texto w E) in Hres.
    injection Hres as <-. now elim Hne. }
  split; [exact Hn|].
  destruct (run_reduces clf texto w Hn) as (ap & an & au & _ & Emax & Eres).
  fold st avg in Emax. rewrite Eres in Hres. injection Hres as <-.
  exists (scan3 ap an au). split; [exact Emax|].
  unfold to_spanish, display in *.
  destruct (snd (scan3 ap an au) <? threshold)%float; [now elim Hne|].
  split; [reflexivity|].
  destruct (String.eqb_spec (fst (scan3 ap an au)) "positive"); [auto|].
  destruct (String.eqb_spec (fst (scan3 ap an au)) "negative"); [auto|].
  now elim Hne.
Qed.

Lemma polarity_needs_confidence_witness :
  analizar_sentimientos_transformers "Sube el cobre."
    (constant_classifier "negative" 0.75) tt = Ok "Negativo"%string
  /\ "Negativo"%string <> "Neutro"%string
  /\ chunk_count (final_state (constant_classifier "negative" 0.75)
                    "Sube el cobre." tt) <> 0.
Proof.
  assert (H1 : analizar_sentimientos_transformers "Sube el cobre."
                 (constant_classifier "negative" 0.75) tt = Ok "Negativo"%string)
    by (vm_compute; reflexivity).
  assert (H2 : "Negativo"%string <> "Neutro"%string) by discriminate.
  split; [exact H1|]. split; [exact H2|].
  exact (proj1 (polarity_needs_confidence _ _ tt _ H1 H2)).
Defined.

End LabelExtras.

Module CleanExtras.
Import PyStr PyStrFacts CleanNews RecordVocab CleanFacts CleanClaims Resumen.
Local Open Scope list_scope.

(** X6: the repair changes the text under [title], [content] and [link] and
    nothing else: no key is added or removed, [image_url] and every other
    key keep their value, and so does every value that is no text. *)
Theorem repair_only_text_fields (fix_text : string -> string) (it : item) :
  dom (fix_item fix_text it) = dom it
  /\ (forall k, ~ In k text_fields -> fix_item fix_text it !! k = it !! k)
  /\ (forall k v, it !! k = Some v -> isinstance_str v = false ->
                  fix_item fix_text it !! k = Some v)
  /\ (forall k s, In k text_fields -> it !! k = Some (JStr s) ->
                  fix_item fix_text it !! k = Some (JStr (strip (fix_text s)))).
Proof.
  split; [|split; [|split]].
  - apply set_eq. intros k. rewrite !elem_of_dom, fix_item_lookup.
    apply fmap_is_Some.
  - intros k Hk. rewrite fix_item_lookup.
    destruct (it !! k) as [v|]; [|reflexivity]. simpl. f_equal.
    unfold fix_value. destruct v; try reflexivity.
    rewrite bool_decide_eq_false_2; [reflexivity|].
    intros H. apply Hk. now apply list_elem_of_In.
  - intros k v E Hv. rewrite fix_item_lookup, E. simpl. f_equal.
    destruct v; try reflexivity. discriminate.
  - intros k s Hk E. rewrite fix_item_lookup, E. simpl.
    rewrite bool_decide_eq_true_2; [reflexivity|]. now apply list_elem_of_In.
Qed.

(** X7: a scraped record passes the required-fields check exactly when its
    [image_url] is a text that is not empty (it is not trimmed) and its
    [title], [content] and [link] are texts that are not empty once
    repaired and trimmed. *)
Theorem kept_by_filter_iff (fix_text : string -> string) (raw : item) :
  is_valid (fix_item fix_text raw) = true
  <-> (exists u, raw !! "image_url" = Some (JStr u) /\ u <> ""%string)
      /\ forall k, In k text_fields ->
           exists s, raw !! k = Some (JStr s) /\ strip (fix_text s) <> ""%string.
Proof.
  rewrite is_valid_filled. unfold filled. split.
  - intros H. split.
    + destruct (H "image_url"%string) as (u & E & Hu); [simpl; auto|].
      rewrite fix_item_lookup in E.
      destruct (raw !! "image_url"%string) as [[| | | |s| |]|]; try discriminate.
      simpl in E. injection E as <-. eauto.
    + intros k Hk. destruct (H k) as (u & E & Hu).
      { simpl in *. intuition. }
      rewrite fix_item_lookup in E.
      destruct (raw !! k) as [[| | | |s| |]|]; try discriminate.
      simpl in E. rewrite bool_decide_eq_true_2 in E by now apply list_elem_of_In.
      injection E as <-. eauto.
  - intros [(u & Eu & Hu) Htext] k Hk.
    destruct Hk as [<- | Hk].
    + exists u. split; [|exact Hu]. now rewrite fix_item_lookup, Eu.
    + destruct (Htext k Hk) as (s & E & Hs).
      exists (strip (fix_text s)). split; [|exact Hs].
      rewrite fix_item_lookup, E. simpl.
      now rewrite bool_decide_eq_true_2 by now apply list_elem_of_In.
Qed.

Lemma length_keep (items : list item) :
  List.length (keep [] items) <= List.length items.
Proof. apply sublist_length, keep_sublist. Qed.

Lemma length_valid_data (fix_text : string -> string) (data : list item) :
  List.length (valid_data fix_text data) <= List.length data.
Proof.
  unfold valid_data.
  etransitivity; [apply List.filter_length_le | now rewrite List.length_map].
Qed.

(** X8: the three numbers of the summary are consistent: none is negative,
    the total is the sum of the other two, and the number of records
    written is the number read less the total. *)
Theorem summary_adds_up (fix_text : string -> string) (data : list item) :
  exists s out,
    clean_news_summary fix_text data = Ok s
    /\ clean_news_data fix_text data = Ok out
    /\ (0 <= missing_fields s)%Z
    /\ (0 <= duplicates s)%Z
    /\ total_removed s = (missing_fields s + duplicates s)%Z
    /\ (total_removed s <= len data)%Z
    /\ len out = (len data - total_removed s)%Z.
Proof.
  set (v := valid_data fix_text data).
  exists (Summary (len data - len (keep [] v)) (len data - len v)
                  (len v - len (keep [] v))), (keep [] v).
  split.
  { unfold clean_news_summary. change dedup_init with (state_of []).
    fold v. rewrite dedup_loop_valid by apply valid_data_valid. reflexivity. }
  split; [apply clean_news_data_keep|].
  pose proof (length_keep v) as H1.
  pose proof (length_valid_data fix_text data) as H2. fold v in H2.
  unfold len. simpl. lia.
Qed.

Lemma keep_keeps (items kept : list item) (k : item) :
  In k kept -> In k (keep kept items).
Proof.
  intros H. destruct (keep_extends items kept) as (added & -> & _).
  apply in_or_app. now left.
Qed.

Lemma keep_covers (items kept : list item) (it : item) :
  In it items ->
  exists k, In k (keep kept items)
            /\ (title_of k = title_of it \/ link_of k = link_of it).
Proof.
  revert kept. induction items as [|x items IH]; intros kept Hin; [easy|].
  destruct Hin as [-> | Hin]; [|now apply IH].
  simpl. destruct (decide (fresh kept it)) as [Hf | Hnot].
  - exists it. split; [|now left].
    apply keep_keeps, in_or_app. right. now left.
  - assert (Hshare : title_of it ∈ List.map title_of kept
                     \/ link_of it ∈ List.map link_of kept).
    { destruct (decide (title_of it ∈ List.map title_of kept)); [now left|].
      destruct (decide (link_of it ∈ List.map link_of kept)); [now right|].
      elim Hnot. now split. }
    destruct Hshare as [H | H]; apply list_elem_of_In, in_map_iff in H;
      destruct H as (k & E & Hk); exists k;
      (split; [now apply keep_keeps | auto]).
Qed.

(** X9: no record is dropped without a reason: every record that passed the
    required-fields check has its title key or its link key in common
    with a record of the output (itself, when it was kept). *)
Theorem dropped_record_has_kept_twin (fix_text : string -> string) (data : list item) :
  exists out,
    clean_news_data fix_text data = Ok out
    /\ forall it, In it (valid_data fix_text data) ->
         exists k, In k out
                   /\ (title_of k = title_of it \/ link_of k = link_of it).
Proof.
  exists (keep [] (valid_data fix_text data)).
  split; [apply clean_news_data_keep|].
  intros it Hin. now apply keep_covers.
Qed.

(** X10: the duplicate filter drops a record exactly when two records that
    passed the required-fields check share a title key or share a link
    key: the output is the whole checked list if and only if its keys are
    pairwise different. *)
Theorem nothing_dropped_iff_distinct (fix_text : string -> string) (data : list item) :
  exists out,
    clean_news_data fix_text data = Ok out
    /\ (out = valid_data fix_text data <-> distinct_keys (valid_data fix_text data)).
Proof.
  exists (keep [] (valid_data fix_text data)).
  split; [apply clean_news_data_keep|]. split.
  - intros E. rewrite <- E. apply output_distinct.
  - intros H. apply (keep_all _ []). exact H.
Qed.

Lemma valid_data_app (fix_text : string -> string) (a b : list item) :
  valid_data fix_text (a ++ b) = valid_data fix_text a ++ valid_data fix_text b.
Proof. unfold valid_data. now rewrite List.map_app, List.filter_app. Qed.

(** X11: records appended to the input do not change what was kept of the
    records before them: the output of the longer input starts with the
    output of the shorter one. *)
Theorem appended_input_extends_output (fix_text : string -> string)
    (data more : list item) :
  exists out added,
    clean_news_data fix_text data = Ok out
    /\ clean_news_data fix_text (data ++ more) = Ok (out ++ added)
    /\ added `sublist_of` valid_data fix_text more.
Proof.
  destruct (keep_extends (valid_data fix_text more)
                         (keep [] (valid_data fix_text data)))
    as (added & E & Hsub).
  exists (keep [] (valid_data fix_text data)), added.
  split; [apply clean_news_data_keep|]. split; [|exact Hsub].
  now rewrite clean_news_data_keep, valid_data_app, keep_app, E.
Qed.

End CleanExtras.


Module AnotarFacts.
Import PyStr PyStrFacts Sentimiento Vocab AccumFacts ReduceFacts.
Import CleanNews RecordVocab CleanFacts CleanClaims Anotar AnotarVocab.
Local Open Scope list_scope.

Section WithClassifier.
Context {W : Type}.
Variable clf : string -> W -> outcome * W.

Lemma analizar_valor_text (s : string) (w : W) :
  exists label w',
    analizar_valor (JStr s) clf w = (Ok label, w')
    /\ In label ["Positivo"; "Negativo"; "Neutro"].
Proof.
  unfold analizar_valor.
  destruct (reduce_total (sentiment_scores (final_state clf s w))
                         (chunk_count (final_state clf s w)))
    as (label & E & Hl); [apply final_state_canonical|].
  exists label, (device (final_state clf s w)). now rewrite E.
Qed.

Lemma main_valid_content (it : item) :
  main_valid it = true -> exists v, it !! "content" = Some v /\ truthy v = true.
Proof.
  unfold main_valid. rewrite forallb_forall. intros H.
  specialize (H "content"%string). unfold has_value in H.
  destruct (it !! "content"%string) as [v|]; [|discriminate H; simpl; auto].
  exists v. split; [reflexivity|]. apply H. simpl. auto.
Qed.

Lemma annotate_texts (items : list item) (w : W) :
  Forall text_content items ->
  exists out, annotate clf items w = Ok out /\ Forall2 annotated items out.
Proof.
  revert w. induction items as [|it items IH]; intros w Hall; simpl.
  - exists []. split; [reflexivity | constructor].
  - inversion Hall as [|? ? [s Es] Hrest]; subst. rewrite Es.
    destruct (analizar_valor_text s w) as (label & w' & -> & Hl).
    cbn [res_bind].
    destruct (IH w' Hrest) as (out & -> & Hout). cbn [res_bind].
    eexists. split; [reflexivity|]. constructor; [|exact Hout].
    exists label. now split.
Qed.

Lemma annotate_raises (items : list item) (w : W) :
  Forall (fun it => main_valid it = true) items ->
  Exists (fun it => ~ text_content it) items ->
  annotate clf items w = Raise AttributeError.
Proof.
  revert w. induction items as [|it items IH]; intros w Hall Hbad; simpl.
  - inversion Hbad.
  - inversion Hall as [|? ? Hv Hrest]; subst.
    destruct (main_valid_content it Hv) as (v & Ev & _). rewrite Ev.
    destruct v as [| | | |s| |]; try reflexivity.
    destruct (analizar_valor_text s w) as (label & w' & -> & _).
    cbn [res_bind]. rewrite IH; [reflexivity | exact Hrest |].
    inversion Hbad as [? ? Hhere | ? ? Hlater]; subst; [|exact Hlater].
    elim Hhere. now exists s.
Qed.

End WithClassifier.

(** X12: when the content of every record that passes the filter of [main] is
    a text, [main] does not raise, and what it writes is those records in
    their order, each with one of the three labels added under
    [sentiment] and nothing else changed. *)
Theorem main_annotates_every_record {W : Type} (data : list item)
    (clf : string -> W -> outcome * W) (w : W) :
  (forall it, In it data -> main_valid it = true -> text_content it) ->
  exists out,
    main data clf w = Ok out
    /\ Forall2 annotated (List.filter main_valid data) out.
Proof.
  intros H. apply annotate_texts.
  apply List.Forall_forall. intros it Hin.
  apply filter_In in Hin as [Hin Hv]. now apply H.
Qed.

Lemma main_annotates_every_record_witness :
  (forall it,
      In it [article "Sube el cobre" "Sube el cobre. Baja el dolar."
               "http://x/1" "http://x/1.png"] ->
      main_valid it = true -> text_content it)
  /\ exists out,
       main [article "Sube el cobre" "Sube el cobre. Baja el dolar."
               "http://x/1" "http://x/1.png"]
            (constant_classifier "positive" 0.75) tt = Ok out
       /\ Forall2 annotated
            (List.filter main_valid
               [article "Sube el cobre" "Sube el cobre. Baja el dolar."
                  "http://x/1" "http://x/1.png"]) out.
Proof.
  assert (H : forall it,
             In it [article "Sube el cobre" "Sube el cobre. Baja el dolar."
                      "http://x/1" "http://x/1.png"] ->
             main_valid it = true -> text_content it).
  { intros it [<- | []] _. eexists. reflexivity. }
  split; [exact H|].
  exact (main_annotates_every_record _ _ tt H).
Defined.

Lemma is_valid_main_valid (it : item) : is_valid it = true -> main_valid it = true.
Proof.
  unfold is_valid, main_valid. rewrite !forallb_forall. intros H k Hk.
  specialize (H k Hk). unfold has_field in H. unfold has_value.
  destruct (it !! k) as [v|]; [|discriminate].
  now apply andb_prop in H as [H _].
Qed.

(** X13: the two stages compose: every record the Normalizer writes passes
    the filter of [main], [main] does not raise on them, and it writes as
    many records as it read, each with its label. *)
Theorem cleaned_records_are_all_annotated {W : Type} (fix_text : string -> string)
    (data : list item) (clf : string -> W -> outcome * W) (w : W) :
  exists out ann,
    clean_news_data fix_text data = Ok out
    /\ List.filter main_valid out = out
    /\ main out clf w = Ok ann
    /\ Forall2 annotated out ann.
Proof.
  set (out := keep [] (valid_data fix_text data)).
  assert (Hvalid : forall it, In it out -> is_valid it = true).
  { intros it Hin. apply output_in_valid in Hin.
    now apply (valid_data_in fix_text) in Hin as [_ Hv]. }
  assert (Hfilter : List.filter main_valid out = out).
  { apply forallb_filter_id, forallb_forall.
    intros it Hin. apply is_valid_main_valid, Hvalid, Hin. }
  destruct (annotate_texts clf out w) as (ann & Hann & Hall).
  { apply List.Forall_forall. intros it Hin.
    destruct (proj1 (is_valid_filled it) (Hvalid it Hin) "content"%string)
      as (s & E & _); [simpl; auto|]. now exists s. }
  exists out, ann. split; [apply clean_news_data_keep|].
  split; [exact Hfilter|]. split; [|exact Hall].
  unfold main. now rewrite Hfilter.
Qed.

(** X14: the filter of [main] asks for a true value, not for a text: a record
    that passes it with a content that is no text (a number, a list) makes
    [main] raise [AttributeError], and nothing is written. *)
Theorem non_text_content_raises {W : Type} (data : list item)
    (clf : string -> W -> outcome * W) (w : W) :
  (exists it, In it data /\ main_valid it = true /\ ~ text_content it) ->
  main data clf w = Raise AttributeError.
Proof.
  intros (it & Hin & Hv & Hbad). apply annotate_raises.
  - apply List.Forall_forall. intros x Hx. now apply filter_In in Hx as [_ Hx].
  - apply List.Exists_exists. exists it. split; [|exact Hbad].
    apply filter_In. now split.
Qed.

Lemma non_text_content_raises_witness :
  (exists it,
      In it [<["content" := JInt 7]>
               (article "Sube el cobre" "" "http://x/1" "http://x/1.png")]
      /\ main_valid it = true /\ ~ text_content it)
  /\ main [<["content" := JInt 7]>
             (article "Sube el cobre" "" "http://x/1" "http://x/1.png")]
          (constant_classifier "positive" 0.75) tt
     = Raise AttributeError.
Proof.
  assert (H : exists it,
             In it [<["content" := JInt 7]>
                      (article "Sube el cobre" "" "http://x/1" "http://x/1.png")]
             /\ main_valid it = true /\ ~ text_content it).
  { eexists. split; [now left|]. split; [reflexivity|].
    intros [s E]. discriminate E. }
  split; [exact H|].
  exact (non_text_content_raises _ _ tt H).
Defined.

End AnotarFacts.


Module ViewsFacts.
Import PyStr PyStrFacts Views ViewsVocab.
Local Open Scope list_scope.

Lemma split_head_no_sep (s : string) :
  exists h t, split "." s = h :: t /\ has_char "." h = false.
Proof.
  induction s as [|c s (h & t & E & Hh)]; simpl.
  - exists ""%string, []. now split.
  - destruct (Ascii.eqb c ".") eqn:Ec.
    + exists ""%string, (split "." s). now split.
    + rewrite E. exists (String c h), t. split; [reflexivity|].
      simpl. now rewrite Ec, Hh.
Qed.

Lemma split_head_prefix (name rest : string) :
  has_char "." name = false ->
  exists t, split "." (name ++ "." ++ rest) = name :: t.
Proof.
  intros H. induction name as [|c name IH].
  - exists (split "." rest). reflexivity.
  - simpl in H. apply orb_false_elim in H as [Hc Hn].
    destruct (IH Hn) as [t E]. exists t.
    change (String c name ++ "." ++ rest)%string
      with (String c (name ++ "." ++ rest)).
    simpl. now rewrite Hc, E.
Qed.

Lemma remove_www_cons (c : ascii) (s : string) :
  Ascii.eqb c "w" = false -> remove_www (String c s) = String c (remove_www s).
Proof.
  intros H. simpl. rewrite H. simpl.
  now destruct s as [|c2 [|c3 [|c4 r4]]].
Qed.

Lemma remove_www_name (name rest : string) :
  has_char "w" name = false ->
  remove_www (name ++ "." ++ rest) = (name ++ "." ++ remove_www rest)%string.
Proof.
  intros H. induction name as [|c name IH].
  - change ("" ++ "." ++ rest)%string with (String "." rest).
    now rewrite remove_www_cons.
  - simpl in H. apply orb_false_elim in H as [Hc Hn].
    change (String c name ++ "." ++ rest)%string
      with (String c (name ++ "." ++ rest)).
    change (String c name ++ "." ++ remove_www rest)%string
      with (String c (name ++ "." ++ remove_www rest)).
    rewrite remove_www_cons by exact Hc. now rewrite (IH Hn).
Qed.

(** X15: the website name is never a dotted name: whatever the link and
    whatever [urlparse] answers, the result holds no ["."]. *)
Theorem website_name_has_no_dot (urlparse_netloc : valor -> res string)
    (link : valor) :
  has_char "." (get_website_from_link urlparse_netloc link) = false.
Proof.
  unfold get_website_from_link.
  destruct (urlparse_netloc link) as [netloc|e]; [|reflexivity].
  destruct (split_head_no_sep (remove_www netloc)) as (h & t & -> & Hh).
  exact Hh.
Qed.

(** X16: for a host [www.name.rest] or [name.rest] whose [name] holds neither
    ["."] nor ["w"], the website name is [name]. *)
Theorem website_name_of_host (urlparse_netloc : valor -> res string)
    (link : valor) (name rest : string) :
  has_char "." name = false -> has_char "w" name = false ->
  (urlparse_netloc link = Ok ("www." ++ name ++ "." ++ rest)%string
   \/ urlparse_netloc link = Ok (name ++ "." ++ rest)%string) ->
  get_website_from_link urlparse_netloc link = name.
Proof.
  intros Hdot Hw Hnet. unfold get_website_from_link.
  assert (E : exists netloc, urlparse_netloc link = Ok netloc
                /\ remove_www netloc = (name ++ "." ++ remove_www rest)%string).
  { destruct Hnet as [E | E]; eexists; (split; [exact E|]).
    - change ("www." ++ name ++ "." ++ rest)%string
        with (String "w" (String "w" (String "w" (String "." (name ++ "." ++ rest))))).
      cbn [remove_www]. simpl. now apply remove_www_name.
    - now apply remove_www_name. }
  destruct E as (netloc & -> & ->).
  now destruct (split_head_prefix name (remove_www rest) Hdot) as [t ->].
Qed.

Lemma website_name_of_host_witness :
  has_char "." "emol" = false /\ has_char "w" "emol" = false
  /\ get_website_from_link (fun _ => Ok "www.emol.com"%string)
       (VStr "https://www.emol.com/noticias/1.html") = "emol"%string.
Proof.
  split; [reflexivity|]. split; [reflexivity|].
  apply (website_name_of_host _ _ "emol" "com"); try reflexivity.
  left. reflexivity.
Defined.

Section GetNews.
Variable urlparse_netloc : valor -> res string.

Lemma fill_website_presentable (d : doc) (u : string) :
  d !! "img_url" = Some (VStr u) -> startswith_http u = true ->
  presentable (fill_website urlparse_netloc d).
Proof.
  intros Eu Hu. unfold fill_website, presentable.
  destruct (get_truthy d "website") eqn:Ew; simpl.
  - split; [eauto|]. intros _. unfold get_truthy in Ew.
    destruct (d !! "website"%string) as [v|]; [eauto | discriminate].
  - destruct (get_truthy d "link") eqn:El.
    + unfold get_truthy in El.
      destruct (d !! "link"%string) as [link|] eqn:E; [|discriminate].
      split.
      * exists u. rewrite lookup_insert_ne by discriminate. now split.
      * intros _. eexists. apply lookup_insert_eq.
    + split; [eauto|]. rewrite El. discriminate.
Qed.

Lemma collect_invariant (max_items : Z) (cursor news_list : list doc) (count : Z) :
  count = Z.of_nat (List.length news_list) ->
  Forall presentable news_list ->
  forall out, collect urlparse_netloc max_items cursor news_list count = Ok out ->
    Forall presentable out
    /\ (Z.of_nat (List.length out) <= Z.max count max_items)%Z
    /\ (List.length out <= List.length news_list + List.length cursor)%nat.
Proof.
  revert news_list count.
  induction cursor as [|d rest IH]; intros news_list count Hc Hall out; simpl.
  - intros [= <-]. split; [exact Hall|]. split; lia.
  - destruct (count >=? max_items)%Z eqn:Eb.
    { intros [= <-]. split; [exact Hall|]. split; lia. }
    rewrite Z.geb_leb in Eb. apply Z.leb_gt in Eb.
    destruct (d !! "img_url"%string) as [[u|[|]]|] eqn:Eu; simpl.
    + destruct (negb (PyStr.truthy u) || negb (startswith_http u)) eqn:En.
      * intros H. destruct (IH _ _ Hc Hall out H) as (H1 & H2 & H3).
        split; [exact H1|]. split; lia.
      * apply orb_false_elim in En as [_ En]. apply negb_false_iff in En.
        intros H. destruct (IH (news_list ++ [fill_website urlparse_netloc d])
                               (count + 1)%Z) with (out := out)
          as (H1 & H2 & H3).
        -- rewrite List.length_app. simpl. lia.
        -- apply Forall_app. split; [exact Hall|].
           constructor; [|constructor]. now apply (fill_website_presentable d u).
        -- exact H.
        -- split; [exact H1|]. rewrite List.length_app in H3. simpl in H3.
           split; lia.
    + discriminate.
    + intros H. destruct (IH _ _ Hc Hall out H) as (H1 & H2 & H3).
      split; [exact H1|]. split; lia.
    + intros H. destruct (IH _ _ Hc Hall out H) as (H1 & H2 & H3).
      split; [exact H1|]. split; lia.
Qed.

End GetNews.

(** X17: whatever the database answers, [get_news] returns at most [limit]
    documents (1000 without a limit), never more than it was given, and
    each of them has an [img_url] that starts with [http://] or
    [https://] and a [website] when it has a [link]. *)
Theorem get_news_is_bounded_and_presentable
    (urlparse_netloc : valor -> res string) (limit : option Z) (cursor : list doc) :
  let out := get_news_from urlparse_netloc limit cursor in
  Forall presentable out
  /\ (Z.of_nat (List.length out) <= Z.max 0 (max_items_of limit))%Z
  /\ (List.length out <= List.length cursor)%nat.
Proof.
  unfold get_news_from.
  destruct (collect urlparse_netloc (max_items_of limit) cursor [] 0%Z)
    as [out|e] eqn:E; simpl.
  - apply (collect_invariant urlparse_netloc _ cursor [] 0%Z); auto.
  - split; [constructor|]. split; lia.
Qed.

Lemma collect_raises (urlparse_netloc : valor -> res string) (max_items : Z)
    (before : list doc) (d : doc) (after news_list : list doc) (count : Z) :
  d !! "img_url" = Some (VOtro true) ->
  (count + Z.of_nat (List.length before) < max_items)%Z ->
  collect urlparse_netloc max_items (before ++ d :: after) news_list count
  = Raise AttributeError.
Proof.
  intros Hd. revert news_list count.
  induction before as [|x before IH]; intros news_list count Hlt; simpl in *.
  - destruct (count >=? max_items)%Z eqn:Eb.
    { rewrite Z.geb_leb in Eb. apply Z.leb_le in Eb. lia. }
    now rewrite Hd.
  - destruct (count >=? max_items)%Z eqn:Eb.
    { rewrite Z.geb_leb in Eb. apply Z.leb_le in Eb. lia. }
    destruct (x !! "img_url"%string) as [[u|[|]]|]; simpl.
    + destruct (negb (PyStr.truthy u) || negb (startswith_http u));
        apply IH; lia.
    + reflexivity.
    + apply IH. lia.
    + apply IH. lia.
Qed.

(** X18: one document is enough to empty the answer: when a document that the
    loop reaches before the limit has an [img_url] that is true and is no
    text, [get_news] returns the empty list, whatever the documents
    before it. *)
Theorem get_news_empty_on_bad_image
    (urlparse_netloc : valor -> res string) (limit : option Z)
    (before : list doc) (d : doc) (after : list doc) :
  d !! "img_url" = Some (VOtro true) ->
  (Z.of_nat (List.length before) < max_items_of limit)%Z ->
  get_news_from urlparse_netloc limit (before ++ d :: after) = [].
Proof.
  intros Hd Hlt. unfold get_news_from.
  now rewrite (collect_raises urlparse_netloc _ before d after [] 0%Z Hd).
Qed.

Lemma get_news_empty_on_bad_image_witness :
  ((<["img_url" := VOtro true]> ∅ : doc) !! "img_url" = Some (VOtro true))
  /\ (Z.of_nat (List.length [<["img_url" := VStr "https://x/1.png"]> (∅ : doc)])
      < max_items_of (Some 5%Z))%Z
  /\ get_news_from (fun _ => Ok "www.emol.com"%string) (Some 5%Z)
       ([<["img_url" := VStr "https://x/1.png"]> ∅]
          ++ <["img_url" := VOtro true]> ∅ :: []) = [].
Proof.
  split; [reflexivity|]. split; [reflexivity|].
  apply get_news_empty_on_bad_image; reflexivity.
Defined.

End ViewsFacts.
